(** * EditorPage: the Playwright page object of the Gutenberg editor

    A shallow embedding of
    [packages/calypso-e2e/src/lib/pages/editor-page.ts].

    The page object is asynchronous glue: every method is a sequence of
    awaited calls into collaborators (the editor components and the
    Playwright [Page], [Frame] and [Locator] objects), sometimes joined with
    [Promise.race], [Promise.all] and [Promise.allSettled].  The
    collaborators are not part of the file; they are a [World] that answers
    each call with a promise.  Promises carry a logical settle time, so that
    "first to settle" has a meaning. *)

From Stdlib Require Import List String Ascii NArith Arith Bool Lia.
From ExtLib Require Import Structures.Monad Structures.MonadExc.
Import ListNotations.
Import MonadNotation.
Local Open Scope monad_scope.
Local Open Scope list_scope.

Set Implicit Arguments.

(** ** JavaScript strings

    A JavaScript string is a sequence of UTF-16 code units. *)

Definition code_unit : Type := N.
Definition jsstring : Type := list code_unit.

(** An ASCII literal as a JavaScript string. *)
Definition js (s : string) : jsstring :=
  map N_of_ascii (list_ascii_of_string s).

(** The character U+0022, which the selectors below contain. *)
Definition dquote : jsstring := [34%N].

Definition code_unit_eqb : code_unit -> code_unit -> bool := N.eqb.

Fixpoint jsstring_eqb (a b : jsstring) : bool :=
  match a, b with
  | [], [] => true
  | x :: a', y :: b' => code_unit_eqb x y && jsstring_eqb a' b'
  | _, _ => false
  end.

(** [a !== b] on strings. *)
Definition strict_neq (a b : jsstring) : bool := negb (jsstring_eqb a b).

(** ECMAScript WhiteSpace and LineTerminator code points, the characters
    that [String.prototype.trim] strips. *)
Definition isWhiteSpace (c : code_unit) : bool :=
  (N.eqb c 9 || N.eqb c 11 || N.eqb c 12 || N.eqb c 32 || N.eqb c 160
   || N.eqb c 5760 || (N.leb 8192 c && N.leb c 8202)
   || N.eqb c 8239 || N.eqb c 8287 || N.eqb c 12288 || N.eqb c 65279)%bool.

Definition isLineTerminator (c : code_unit) : bool :=
  (N.eqb c 10 || N.eqb c 13 || N.eqb c 8232 || N.eqb c 8233)%bool.

Definition isTrimmed (c : code_unit) : bool :=
  isWhiteSpace c || isLineTerminator c.

Fixpoint trimStart (s : jsstring) : jsstring :=
  match s with
  | [] => []
  | c :: s' => if isTrimmed c then trimStart s' else s
  end.

Definition trimEnd (s : jsstring) : jsstring := rev (trimStart (rev s)).

(** [s.trim()] *)
Definition trim (s : jsstring) : jsstring := trimEnd (trimStart s).

Fixpoint startsWith (prefix s : jsstring) : bool :=
  match prefix, s with
  | [], _ => true
  | _ :: _, [] => false
  | p :: prefix', c :: s' => code_unit_eqb p c && startsWith prefix' s'
  end.

(** [s.includes( needle )] *)
Fixpoint includes (needle s : jsstring) : bool :=
  startsWith needle s ||
  match s with
  | [] => false
  | _ :: s' => includes needle s'
  end.

(** ** Values handed around by Playwright *)

Inductive Frame : Type :=
| mainFrame
| childFrame (id : nat).

Inductive ElementHandle : Type := element_handle (id : nat).
Inductive Page : Type := popup_page (id : nat).
Inductive Response : Type := response (id : nat).

(** A [URL] object, identified by its serialisation. *)
Record URL : Type := { href : jsstring }.

(** ** Errors *)

Inductive Err : Type :=
| Error (message : jsstring)          (* [new Error( message )] *)
| TypeError (message : jsstring)      (* raised by the runtime *)
| TimeoutError (message : jsstring)   (* Playwright's bounded waits *)
| OtherError (code : nat).

(** ** Promises with a logical settle time *)

Inductive Settled (A : Type) : Type :=
| Fulfilled (value : A)
| Rejected (reason : Err).
Arguments Rejected {A} reason.

Inductive Promise (A : Type) : Type :=
| Pending                               (* never settles *)
| Settles (at_time : nat) (result : Settled A).
Arguments Pending {A}.

(** What a method leaves behind: the collaborator calls it started, each
    stamped with the time it was started at, and the promise it returned. *)
Record Run (Ev A : Type) : Type :=
  { events : list (nat * Ev);
    outcome : Promise A }.

(** ** Types declared in [../components]

    [Schedule], [PrivacyOptions] and [PreviewOptions] are imported as types
    only; the page object passes their values through. *)
Class ComponentTypes : Type :=
  { Schedule : Type;
    PrivacyOptions : Type;
    PreviewOptions : Type }.

Section Collaborators.

Context {types : ComponentTypes}.

(** ** Collaborator calls

    One constructor for each asynchronous method the page object calls,
    named after the object that owns it. *)
Inductive Action : Type :=
(* EditorGutenbergComponent *)
| Gutenberg_enterTitle (title : jsstring)
| Gutenberg_getTitle
| Gutenberg_enterText (text : jsstring)
| Gutenberg_getText
| Gutenberg_resetSelectedBlock
| Gutenberg_searchBlockInserter (blockName : jsstring)
| Gutenberg_selectBlockInserterResult (blockName : jsstring)
| Gutenberg_getSelectedBlockElementHandle (blockEditorSelector : jsstring)
(* EditorToolbarComponent *)
| Toolbar_openBlockInserter
| Toolbar_closeBlockInserter
| Toolbar_closeSettings
| Toolbar_clickPublish
| Toolbar_switchToDraft
| Toolbar_openMobilePreview
| Toolbar_openDesktopPreview (target : PreviewOptions)
(* EditorPublishPanelComponent *)
| PublishPanel_closePanel
| PublishPanel_panelIsOpen
| PublishPanel_publish
| PublishPanel_getPublishedURL
(* EditorNavSidebarComponent *)
| NavSidebar_openSidebar
| NavSidebar_closeSidebar
| NavSidebar_exitEditor
(* EditorSettingsSidebarComponent *)
| Settings_clickTab (tab : jsstring)
| Settings_expandSection (name : jsstring)
| Settings_openVisibilityOptions
| Settings_selectVisibility (visibility : PrivacyOptions)
                            (password : option jsstring)
| Settings_closeVisibilityOptions
| Settings_checkCategory (name : jsstring)
| Settings_enterTag (tag : jsstring)
| Settings_enterUrlSlug (slug : jsstring)
| Settings_openSchedule
| Settings_setScheduleDetails (date : Schedule)
| Settings_closeSchedule
(* NavbarComponent, constructed on the page *)
| Navbar_clickMySites
(* Playwright: page, locator, element handle, frame *)
| Page_goto (url waitUntil : jsstring)
| Page_waitForNavigation (url : jsstring)
| Locator_elementHandle (selector : jsstring) (timeout : N)
| ElementHandle_contentFrame (handle : ElementHandle)
| Frame_click (frame : Frame) (selector : jsstring)
| Frame_waitForSelector (frame : Frame) (selector : jsstring)
| Frame_locator_getAttribute (frame : Frame) (selector name : jsstring)
(* element-helper: [reloadAndRetry( page, confirmPostShown )], where
   [confirmPostShown] waits for the selector within the timeout *)
| reloadAndRetry_waitForSelector (selector : jsstring) (timeout : N).

(** The type each call's promise resolves to.  [option] stands for a
    TypeScript [null | T]. *)
Definition ret_type (a : Action) : Type :=
  match a with
  | Gutenberg_getTitle | Gutenberg_getText => jsstring
  | Gutenberg_getSelectedBlockElementHandle _ => ElementHandle
  | Toolbar_openMobilePreview => Page
  | PublishPanel_panelIsOpen => bool
  | PublishPanel_getPublishedURL => URL
  | Page_goto _ _ | Page_waitForNavigation _ => option Response
  | Locator_elementHandle _ _ => option ElementHandle
  | ElementHandle_contentFrame _ => option Frame
  | Frame_waitForSelector _ _ => option ElementHandle
  | Frame_locator_getAttribute _ _ _ => option jsstring
  | _ => unit
  end.

(** Everything observable a method does besides returning. *)
Inductive Event : Type :=
| Invoke (a : Action)
| Console_info (message : jsstring)
| Page_once_dialog_accept.

(** The collaborators.  [respond a t] is the promise returned by call [a]
    started at time [t], its settle time given as a delay from [t];
    [page_url t] is what the synchronous [page.url()] returns at [t]. *)
Record World : Type :=
  { respond : forall a : Action, nat -> Promise (ret_type a);
    page_url : nat -> jsstring }.

(** The platform: [envVariables.VIEWPORT_NAME], and the parser behind
    [new URL( s )], which fails on a string that is not an absolute URL. *)
Record Platform : Type :=
  { VIEWPORT_NAME : jsstring;
    URL_parse : jsstring -> option URL }.

(** ** Asynchronous computations

    An [async] function body, started at a given time. *)
Definition Async (A : Type) : Type := nat -> Run Event A.

Definition resolve {A} (v : A) : Async A :=
  fun t => {| events := []; outcome := Settles t (Fulfilled v) |}.

Definition throw {A} (e : Err) : Async A :=
  fun t => {| events := []; outcome := Settles t (Rejected e) |}.

(** [await m] followed by the rest of the body. *)
Definition await {A B} (m : Async A) (k : A -> Async B) : Async B :=
  fun t =>
    let r := m t in
    match outcome r with
    | Pending => {| events := events r; outcome := Pending |}
    | Settles t' (Rejected e) =>
        {| events := events r; outcome := Settles t' (Rejected e) |}
    | Settles t' (Fulfilled v) =>
        let r' := k v t' in
        {| events := events r ++ events r'; outcome := outcome r' |}
    end.

(** [try { m } catch { h }] *)
Definition try_catch {A} (m : Async A) (h : Err -> Async A) : Async A :=
  fun t =>
    let r := m t in
    match outcome r with
    | Settles t' (Rejected e) =>
        let r' := h e t' in
        {| events := events r ++ events r'; outcome := outcome r' |}
    | _ => r
    end.

#[global] Instance Monad_Async : Monad Async :=
  { ret := @resolve; bind := @await }.

#[global] Instance MonadExc_Async : MonadExc Err Async :=
  { raise := @throw; catch := @try_catch }.

(** A synchronous effect that cannot fail. *)
Definition emit (e : Event) : Async unit :=
  fun t => {| events := [(t, e)]; outcome := Settles t (Fulfilled tt) |}.

Definition console_info (message : jsstring) : Async unit :=
  emit (Console_info message).

(** Dereferencing a [null | T] value: a method call on [null] throws. *)
Definition non_null {A} (x : option A) : Async A :=
  match x with
  | Some v => ret v
  | None => raise (TypeError (js "Cannot read properties of null"))
  end.

(** ** Promise combinators *)

(** Of two promises the one that settles first; the left one on a tie. *)
Definition earlier {A} (p q : Promise A) : Promise A :=
  match p, q with
  | Pending, _ => q
  | _, Pending => p
  | Settles t _, Settles u _ => if u <? t then q else p
  end.

Definition race_outcome {A} (ps : list (Promise A)) : Promise A :=
  fold_right earlier Pending ps.

(** The earliest rejection among the promises, if any. *)
Definition rejection_of {A B} (p : Promise A) : Promise B :=
  match p with
  | Settles t (Rejected e) => Settles t (Rejected e)
  | _ => Pending
  end.

Definition first_rejection {A B} (ps : list (Promise A)) : Promise B :=
  race_outcome (map rejection_of ps).

(** All values with the time the last one arrived, when every promise is
    fulfilled. *)
Fixpoint all_fulfilled {A} (t0 : nat) (ps : list (Promise A))
  : option (nat * list A) :=
  match ps with
  | [] => Some (t0, [])
  | Settles t (Fulfilled v) :: ps' =>
      match all_fulfilled t0 ps' with
      | Some (tm, vs) => Some (Nat.max t tm, v :: vs)
      | None => None
      end
  | _ :: _ => None
  end.

Definition all_outcome {A} (t0 : nat) (ps : list (Promise A))
  : Promise (list A) :=
  match first_rejection ps with
  | Settles t r => Settles t r
  | Pending =>
      match all_fulfilled t0 ps with
      | Some (tm, vs) => Settles tm (Fulfilled vs)
      | None => Pending
      end
  end.

(** All results with the time the last one arrived, when every promise
    has settled. *)
Fixpoint all_settled {A} (t0 : nat) (ps : list (Promise A))
  : option (nat * list (Settled A)) :=
  match ps with
  | [] => Some (t0, [])
  | Settles t r :: ps' =>
      match all_settled t0 ps' with
      | Some (tm, rs) => Some (Nat.max t tm, r :: rs)
      | None => None
      end
  | Pending :: _ => None
  end.

Definition allSettled_outcome {A} (t0 : nat) (ps : list (Promise A))
  : Promise (list (Settled A)) :=
  match all_settled t0 ps with
  | Some (tm, rs) => Settles tm (Fulfilled rs)
  | None => Pending
  end.

(** The array literal [[ m1(), m2(), ... ]]: every call is started, in
    order, at the same time. *)
Definition started {A} (ms : list (Async A)) (t : nat)
  : list (Run Event A) :=
  map (fun m => m t) ms.

Definition events_of {A} (rs : list (Run Event A)) : list (nat * Event) :=
  List.concat (map (@events Event A) rs).

(** [Promise.race( ms )]: settles as the first of [ms] to settle does,
    whether it is fulfilled or rejected. *)
Definition Promise_race {A} (ms : list (Async A)) : Async A :=
  fun t =>
    let rs := started ms t in
    {| events := events_of rs;
       outcome := race_outcome (map (@outcome Event A) rs) |}.

(** [Promise.all( ms )]: rejected with the first rejection, fulfilled when
    all are. *)
Definition Promise_all {A} (ms : list (Async A)) : Async (list A) :=
  fun t =>
    let rs := started ms t in
    {| events := events_of rs;
       outcome := all_outcome t (map (@outcome Event A) rs) |}.

(** [Promise.allSettled( ms )]: fulfilled when all have settled, never
    rejected. *)
Definition Promise_allSettled {A} (ms : list (Async A))
  : Async (list (Settled A)) :=
  fun t =>
    let rs := started ms t in
    {| events := events_of rs;
       outcome := allSettled_outcome t (map (@outcome Event A) rs) |}.

(** A promise stored as [Promise< unknown >]: its value is not used. *)
Definition unknown {A} (m : Async A) : Async unit :=
  _ <- m ;; ret tt.

End Collaborators.

(** ** The selectors of the file *)

Module selectors.
Definition editorFrame : jsstring :=
  js ".calypsoify.is-iframe iframe.is-loaded".
Definition editorTitle : jsstring := js ".editor-post-title__input".
Definition blockWarning : jsstring := js ".block-editor-warning".
Definition toastViewPostLink : jsstring :=
  js ".components-snackbar__content a:text-matches(" ++ dquote
    ++ js "View (Post|Page)" ++ dquote ++ js ", " ++ dquote ++ js "i"
    ++ dquote ++ js ")".
Definition welcomeTourCloseButton : jsstring :=
  js "button[aria-label=" ++ dquote ++ js "Close Tour" ++ dquote ++ js "]".
End selectors.

(** ** The page object *)

(** The fields of [EditorPage] that are data; [page], [frameLocator] and the
    five components are the [World]. *)
Record EditorPage : Type := { requiresGutenframe : bool }.

(** The default of the constructor's [options] argument. *)
Definition default_options : EditorPage := {| requiresGutenframe := false |}.

Section Methods.

Context {types : ComponentTypes}.
Variable platform : Platform.
Variable world : World.
Variable this : EditorPage.

(** Starting a collaborator call: it is recorded, and the world's answer
    is the promise.  The collaborators' methods are [async], so a call
    itself never throws: a failure is a rejected promise. *)
Definition call (a : Action) : Async (ret_type a) :=
  fun t =>
    {| events := [(t, Invoke a)];
       outcome :=
         match respond world a t with
         | Pending => Pending
         | Settles d r => Settles (t + d) r
         end |}.

(** [this.page.url()] *)
Definition page_url_now : Async jsstring :=
  fun t =>
    {| events := []; outcome := Settles t (Fulfilled (page_url world t)) |}.

(** A [null | string] converted to a string, as [new URL] does to its
    argument. *)
Definition ToString (x : option jsstring) : jsstring :=
  match x with
  | Some s => s
  | None => js "null"
  end.

(** [new URL( x )] *)
Definition new_URL (x : option jsstring) : Async URL :=
  match URL_parse platform (ToString x) with
  | Some u => ret u
  | None => raise (TypeError (js "Invalid URL"))
  end.

Definition is_mobile : bool :=
  jsstring_eqb (VIEWPORT_NAME platform) (js "mobile").

(** *** Generic methods *)

Definition getEditorFrame : Async (option Frame) :=
  let locate : Async (option Frame) :=
    let locator := selectors.editorFrame in
    catch
      (elementHandle <- call (Locator_elementHandle locator (105 * 1000)) ;;
       handle <- non_null elementHandle ;;
       call (ElementHandle_contentFrame handle))
      (fun _ =>
         if requiresGutenframe this then
           raise (Error (js "Could not locate editor iframe"))
         else
           console_info
             (js "Could not locate editor iframe. Returning the top-level frame instead") ;;
           ret (Some mainFrame))
  in
  if negb (requiresGutenframe this) then
    url <- page_url_now ;;
    if includes (js "/wp-admin") url then ret (Some mainFrame) else locate
  else locate.

Definition closeAllPanels : Async unit :=
  _ <- Promise_allSettled
         [ call PublishPanel_closePanel;
           call NavSidebar_closeSidebar;
           call Toolbar_closeSettings ] ;;
  ret tt.

(** *** Editor *)

Definition enterTitle (title : jsstring) : Async unit :=
  call (Gutenberg_enterTitle title) ;;
  enteredTitle <- call Gutenberg_getTitle ;;
  let sanitizedTitle := trim title in
  if strict_neq enteredTitle sanitizedTitle then
    raise (Error (js "Failed to verify title: got " ++ enteredTitle
                    ++ js ", expected " ++ sanitizedTitle))
  else ret tt.

Definition enterText (text : jsstring) : Async unit :=
  call (Gutenberg_enterText text) ;;
  enteredText <- call Gutenberg_getText ;;
  if strict_neq text enteredText then
    (* an expression statement: the message is built and dropped *)
    let _ := js "Failed to verify entered text: got " ++ enteredText
               ++ js ", expected " ++ text in
    ret tt
  else ret tt.

Definition addBlock (blockName blockEditorSelector : jsstring)
  : Async ElementHandle :=
  call Gutenberg_resetSelectedBlock ;;
  call Toolbar_openBlockInserter ;;
  call (Gutenberg_searchBlockInserter blockName) ;;
  call (Gutenberg_selectBlockInserterResult blockName) ;;
  blockHandle <-
    call (Gutenberg_getSelectedBlockElementHandle blockEditorSelector) ;;
  (if negb is_mobile then call Toolbar_closeBlockInserter else ret tt) ;;
  ret blockHandle.

(** *** Settings sidebar *)

Definition setArticleVisibility (visibility : PrivacyOptions)
    (password : option jsstring) : Async unit :=
  Promise_race [ call (Settings_clickTab (js "Page"));
                 call (Settings_clickTab (js "Post")) ] ;;
  call (Settings_expandSection (js "Status & Visibility")) ;;
  call Settings_openVisibilityOptions ;;
  call (Settings_selectVisibility visibility password) ;;
  call Settings_closeVisibilityOptions.

Definition selectCategory (name : jsstring) : Async unit :=
  Promise_race [ call (Settings_clickTab (js "Page"));
                 call (Settings_clickTab (js "Post")) ] ;;
  call (Settings_expandSection (js "Categories")) ;;
  call (Settings_checkCategory name).

Definition addTag (tag : jsstring) : Async unit :=
  Promise_race [ call (Settings_clickTab (js "Page"));
                 call (Settings_clickTab (js "Post")) ] ;;
  call (Settings_expandSection (js "Tags")) ;;
  call (Settings_enterTag tag).

Definition setURLSlug (slug : jsstring) : Async unit :=
  Promise_race [ call (Settings_clickTab (js "Page"));
                 call (Settings_clickTab (js "Post")) ] ;;
  call (Settings_expandSection (js "Permalink")) ;;
  call (Settings_enterUrlSlug slug).

(** *** Publish, draft and schedule *)

Definition getPublishedURLFromToast : Async URL :=
  frame <- getEditorFrame ;;
  frame <- non_null frame ;;
  publishedURL <-
    call (Frame_locator_getAttribute frame selectors.toastViewPostLink
            (js "href")) ;;
  new_URL publishedURL.

Definition visitPublishedPost (url : jsstring) : Async unit :=
  emit Page_once_dialog_accept ;;
  call (Page_goto url (js "domcontentloaded")) ;;
  call (reloadAndRetry_waitForSelector (js ".entry-content") (15 * 1000)).

Definition publish (visit : bool) : Async URL :=
  call Toolbar_clickPublish ;;
  panelIsOpen <- call PublishPanel_panelIsOpen ;;
  (if panelIsOpen : bool then call PublishPanel_publish else ret tt) ;;
  publishedURL <-
    Promise_race [ call PublishPanel_getPublishedURL;
                   getPublishedURLFromToast ] ;;
  (if visit then visitPublishedPost (href publishedURL) else ret tt) ;;
  ret publishedURL.

Definition schedule (date : Schedule) : Async unit :=
  Promise_race [ call (Settings_clickTab (js "Page"));
                 call (Settings_clickTab (js "Post")) ] ;;
  call (Settings_expandSection (js "Status & Visibility")) ;;
  call Settings_openSchedule ;;
  call (Settings_setScheduleDetails date) ;;
  call Settings_closeSchedule.

Definition unpublish : Async unit :=
  call Toolbar_switchToDraft ;;
  frame <- getEditorFrame ;;
  frame <- non_null frame ;;
  call (Frame_click frame
          (js "div[role=" ++ dquote ++ js "dialog" ++ dquote
             ++ js "] button:has-text(" ++ dquote ++ js "OK" ++ dquote
             ++ js ")")) ;;
  _ <- call (Frame_waitForSelector frame
               (js ".components-editor-notices__snackbar :has-text("
                  ++ dquote ++ js "Post reverted to draft." ++ dquote
                  ++ js ")")) ;;
  ret tt.

(** *** Previews *)

Definition previewAsMobile : Async Page :=
  if negb is_mobile then
    raise (Error (js "This method only works in mobile viewport, current viewport: "
                    ++ VIEWPORT_NAME platform ++ js " "))
  else call Toolbar_openMobilePreview.

Definition previewAsDesktop (target : PreviewOptions) : Async unit :=
  if is_mobile then
    raise (Error (js "This method only works in non-mobile viewport, current viewport: "
                    ++ VIEWPORT_NAME platform ++ js " "))
  else call (Toolbar_openDesktopPreview target).

(** *** Misc *)

Definition exitEditor : Async unit :=
  call NavSidebar_openSidebar ;;
  let navigationPromise :=
    Promise_race [ call (Page_waitForNavigation (js "**/home/**"));
                   call (Page_waitForNavigation (js "**/posts/**"));
                   call (Page_waitForNavigation (js "**/pages/**")) ] in
  let actions := [ unknown navigationPromise ] in
  let actions :=
    if is_mobile then actions ++ [ unknown (call Navbar_clickMySites) ]
    else actions ++ [ unknown (call NavSidebar_exitEditor) ] in
  _ <- Promise_all actions ;;
  ret tt.

End Methods.

(** * Vocabulary of the properties *)

(** ** The error taxonomy, by the messages the file raises *)

Definition VerificationMismatch (got expected : jsstring) : Err :=
  Error (js "Failed to verify title: got " ++ got
           ++ js ", expected " ++ expected).

Definition SurfaceNotFound : Err :=
  Error (js "Could not locate editor iframe").

Definition ModeMismatch (only_works_in current : jsstring) : Err :=
  Error (js "This method only works in " ++ only_works_in
           ++ js " viewport, current viewport: " ++ current ++ js " ").

Section Vocabulary.

Context {types : ComponentTypes}.

(** The search for the editor iframe that [getEditorFrame] starts. *)
Definition iframe_search : Action :=
  Locator_elementHandle selectors.editorFrame 105000.

Definition degraded_notice : Event :=
  Console_info
    (js "Could not locate editor iframe. Returning the top-level frame instead").

End Vocabulary.

(** The two selectors [unpublish] uses. *)
Definition confirm_dialog_OK : jsstring :=
  js "div[role=" ++ dquote ++ js "dialog" ++ dquote
    ++ js "] button:has-text(" ++ dquote ++ js "OK" ++ dquote ++ js ")".

Definition reverted_to_draft_notice : jsstring :=
  js ".components-editor-notices__snackbar :has-text(" ++ dquote
    ++ js "Post reverted to draft." ++ dquote ++ js ")".

(** [settles_after T p]: promise [p] has not settled by time [T]; it
    settles later or never. *)
Definition settles_after {A} (T : nat) (p : Promise A) : Prop :=
  match p with
  | Pending => True
  | Settles u _ => T < u
  end.

(** [settles_not_before T p]: promise [p] settles at [T] at the earliest. *)
Definition settles_not_before {A} (T : nat) (p : Promise A) : Prop :=
  match p with
  | Pending => True
  | Settles u _ => T <= u
  end.

Section Workflows.

Context {types : ComponentTypes}.
Variable platform : Platform.
Variable world : World.

(** The three destinations [exitEditor] waits for. *)
Definition destinations : list jsstring :=
  [ js "**/home/**"; js "**/posts/**"; js "**/pages/**" ].

(** The call that leaves the editor under the current viewport, and the
    promise it returns when started at [t]. *)
Definition exit_action : Action :=
  if is_mobile platform then Navbar_clickMySites else NavSidebar_exitEditor.

Definition exit_action_promise (t : nat) : Promise unit :=
  if is_mobile platform then outcome (call world Navbar_clickMySites t)
  else outcome (call world NavSidebar_exitEditor t).

(** The two tab clicks, started together at [t]. *)
Definition tab_clicks (t : nat) : list (nat * Event) :=
  [ (t, Invoke (Settings_clickTab (js "Page")));
    (t, Invoke (Settings_clickTab (js "Post"))) ].

(** One of the two clicks started at [t] succeeds after [d], and the other
    has not settled by then. *)
Definition tab_resolved (t d : nat) : Prop :=
  (respond world (Settings_clickTab (js "Page")) t = Settles d (Fulfilled tt)
   /\ settles_after d (respond world (Settings_clickTab (js "Post")) t))
  \/
  (respond world (Settings_clickTab (js "Post")) t = Settles d (Fulfilled tt)
   /\ settles_after d (respond world (Settings_clickTab (js "Page")) t)).

(** [workflow] starts by the two tab clicks, and when the tab is resolved
    goes on with [steps] from that moment. *)
Definition begins_with_tab_resolution (workflow steps : Async unit) : Prop :=
  forall t : nat,
    (exists rest, events (workflow t) = tab_clicks t ++ rest)
    /\ (forall d : nat,
          tab_resolved t d ->
          workflow t
          = {| events := tab_clicks t ++ events (steps (t + d));
               outcome := outcome (steps (t + d)) |}).

End Workflows.

(** ** Scenarios: concrete collaborators *)

Module Scenario.

#[export] Instance types : ComponentTypes :=
  {| Schedule := nat; PrivacyOptions := jsstring; PreviewOptions := jsstring |}.

Definition post_url : jsstring := js "https://example.wordpress.com/hello".

(** A stand-in for the URL parser: absolute [https] URLs only. *)
Definition https_only (s : jsstring) : option URL :=
  if startsWith (js "https://") s then Some {| href := s |} else None.

Definition desktop : Platform :=
  {| VIEWPORT_NAME := js "desktop"; URL_parse := https_only |}.
Definition mobile : Platform :=
  {| VIEWPORT_NAME := js "mobile"; URL_parse := https_only |}.

(** A value for every call. *)
Definition some_value (a : Action) : ret_type a :=
  match a return ret_type a with
  | Gutenberg_getTitle => js "Hello"
  | Gutenberg_getText => js "Hello"
  | Gutenberg_getSelectedBlockElementHandle _ => element_handle 7
  | Toolbar_openMobilePreview => popup_page 1
  | PublishPanel_panelIsOpen => true
  | PublishPanel_getPublishedURL => {| href := post_url |}
  | Page_goto _ _ => None
  | Page_waitForNavigation _ => None
  | Locator_elementHandle _ _ => Some (element_handle 0)
  | ElementHandle_contentFrame _ => Some (childFrame 0)
  | Frame_waitForSelector _ _ => Some (element_handle 1)
  | Frame_locator_getAttribute _ _ _ => Some post_url
  | _ => tt
  end.

(** Every call is fulfilled one tick after it starts. *)
Definition cooperative : World :=
  {| respond := fun a _ => Settles 1 (Fulfilled (some_value a));
     page_url := fun _ => js "https://wordpress.com/post/example" |}.

(** As [cooperative], but the title reads back as [observed]. *)
Definition title_reads (observed : jsstring) : World :=
  {| respond := fun a _ =>
       match a return Promise (ret_type a) with
       | Gutenberg_getTitle => Settles 1 (Fulfilled observed)
       | a' => Settles 1 (Fulfilled (some_value a'))
       end;
     page_url := fun _ => js "https://wordpress.com/post/example" |}.

(** As [cooperative], but the body reads back as [observed]. *)
Definition text_reads (observed : jsstring) : World :=
  {| respond := fun a _ =>
       match a return Promise (ret_type a) with
       | Gutenberg_getText => Settles 1 (Fulfilled observed)
       | a' => Settles 1 (Fulfilled (some_value a'))
       end;
     page_url := fun _ => js "https://wordpress.com/post/example" |}.

Definition timed_out : Err := TimeoutError (js "Timeout exceeded").

(** The editor was opened from WP Admin. *)
Definition wp_admin : World :=
  {| respond := fun a _ => Settles 1 (Fulfilled (some_value a));
     page_url := fun _ =>
       js "https://example.wordpress.com/wp-admin/post-new.php" |}.

(** The editor iframe never loads: the search times out. *)
Definition no_iframe : World :=
  {| respond := fun a _ =>
       match a return Promise (ret_type a) with
       | Locator_elementHandle _ _ => Settles 105 (Rejected timed_out)
       | a' => Settles 1 (Fulfilled (some_value a'))
       end;
     page_url := fun _ => js "https://wordpress.com/post/example" |}.

Definition strict : EditorPage := {| requiresGutenframe := true |}.

(** The post-publish panel is dismissed: its readout never comes. *)
Definition panel_suppressed : World :=
  {| respond := fun a _ =>
       match a return Promise (ret_type a) with
       | PublishPanel_getPublishedURL => Pending
       | a' => Settles 1 (Fulfilled (some_value a'))
       end;
     page_url := fun _ => js "https://wordpress.com/post/example" |}.

(** Neither the panel readout nor the toast link shows up. *)
Definition nothing_published : World :=
  {| respond := fun a _ =>
       match a return Promise (ret_type a) with
       | PublishPanel_getPublishedURL => Settles 30 (Rejected timed_out)
       | Frame_locator_getAttribute _ _ _ =>
           Settles 30 (Rejected timed_out)
       | a' => Settles 1 (Fulfilled (some_value a'))
       end;
     page_url := fun _ => js "https://wordpress.com/post/example" |}.

(** Leaving the editor lands on the posts list, three ticks after the
    waits start; the other two destinations are never reached. *)
Definition lands_on_posts : World :=
  {| respond := fun a _ =>
       match a return Promise (ret_type a) with
       | Page_waitForNavigation url =>
           if jsstring_eqb url (js "**/posts/**")
           then Settles 3 (Fulfilled (Some (response 200)))
           else Pending
       | a' => Settles 1 (Fulfilled (some_value a'))
       end;
     page_url := fun _ => js "https://wordpress.com/post/example" |}.

(** A post is being edited: there is a Post tab, and the click on the
    Page tab times out. *)
Definition post_editor : World :=
  {| respond := fun a _ =>
       match a return Promise (ret_type a) with
       | Settings_clickTab tab =>
           if jsstring_eqb tab (js "Post")
           then Settles 1 (Fulfilled tt)
           else Settles 30 (Rejected timed_out)
       | a' => Settles 1 (Fulfilled (some_value a'))
       end;
     page_url := fun _ => js "https://wordpress.com/post/example" |}.

(** Two of the three panels fail to close. *)
Definition stuck_panels : World :=
  {| respond := fun a _ =>
       match a return Promise (ret_type a) with
       | PublishPanel_closePanel => Settles 30 (Rejected timed_out)
       | Toolbar_closeSettings => Settles 2 (Rejected (OtherError 1))
       | a' => Settles 1 (Fulfilled (some_value a'))
       end;
     page_url := fun _ => js "https://wordpress.com/post/example" |}.

(** The "reverted to draft" notice never appears. *)
Definition notice_missing : World :=
  {| respond := fun a _ =>
       match a return Promise (ret_type a) with
       | Frame_waitForSelector _ _ => Settles 30 (Rejected timed_out)
       | a' => Settles 1 (Fulfilled (some_value a'))
       end;
     page_url := fun _ => js "https://wordpress.com/post/example" |}.

End Scenario.

(** * The remaining methods of the page object *)

(** ** Methods over the calls listed so far *)

Section Delegations.

Context {types : ComponentTypes}.
Variable platform : Platform.
Variable world : World.

(** The literal ['Desktop'], a [PreviewOptions]. *)
Variable Desktop : PreviewOptions.

Definition getText : Async jsstring :=
  call world Gutenberg_getText.

Definition clickSettingsTab (tab : jsstring) : Async unit :=
  call world (Settings_clickTab tab).

Definition closePreview : Async unit :=
  if is_mobile platform then ret tt
  else call world (Toolbar_openDesktopPreview Desktop).

End Delegations.

(** ** Further collaborator calls

    The methods below also call collaborator methods that are not among
    [Action].  A [FullWorld] answers those on top of a [World], and a
    [Flow] records both kinds of call. *)

(** The two functions that [forceDismissWelcomeTour] has the frame
    evaluate until they return a truthy value. *)
Inductive PageFunction : Type :=
| isWelcomeGuideStatusLoaded
    (* select( 'automattic/wpcom-welcome-guide' ).isWelcomeGuideStatusLoaded() *)
| setShowWelcomeGuide_false.
    (* dispatch( ... ).setShowWelcomeGuide( false ), then [payload.show === false] *)

Inductive FurtherAction : Type :=
(* EditorToolbarComponent *)
| Toolbar_openSettings
| Toolbar_saveDraft
(* EditorSettingsSidebarComponent *)
| Settings_closeSidebarForMobile
| Settings_showRevisions
(* EditorGutenbergComponent *)
| Gutenberg_editorHasBlockWarning
| Gutenberg_selectBlockInserterResult_of_type (name type : jsstring)
(* Playwright: [this.frameLocator.locator( selector ).waitFor()] *)
| FrameLocator_waitFor (selector : jsstring)
(* Playwright: element handle, keyboard, page, frame *)
| ElementHandle_click (handle : ElementHandle)
| Keyboard_press (key : jsstring)
| Page_goto_url (url : jsstring)
| Frame_waitForFunction (frame : Frame) (fn : PageFunction).

Definition further_ret_type (a : FurtherAction) : Type :=
  match a with
  | Gutenberg_editorHasBlockWarning => bool
  | Page_goto_url _ => option Response
  | _ => unit
  end.

Section Flows.

Context {types : ComponentTypes}.

Inductive AnyEvent : Type :=
| Listed (e : Event)
| InvokeFurther (a : FurtherAction).

Record FullWorld : Type :=
  { core : World;
    respond_further :
      forall a : FurtherAction, nat -> Promise (further_ret_type a) }.

Definition Flow (A : Type) : Type := nat -> Run AnyEvent A.

Definition flow_resolve {A} (v : A) : Flow A :=
  fun t => {| events := []; outcome := Settles t (Fulfilled v) |}.

Definition flow_await {A B} (m : Flow A) (k : A -> Flow B) : Flow B :=
  fun t =>
    let r := m t in
    match outcome r with
    | Pending => {| events := events r; outcome := Pending |}
    | Settles t' (Rejected e) =>
        {| events := events r; outcome := Settles t' (Rejected e) |}
    | Settles t' (Fulfilled v) =>
        let r' := k v t' in
        {| events := events r ++ events r'; outcome := outcome r' |}
    end.

#[global] Instance Monad_Flow : Monad Flow :=
  { ret := @flow_resolve; bind := @flow_await }.

(** A computation over the listed calls, as part of a flow. *)
Definition lift {A} (m : Async A) : Flow A :=
  fun t =>
    {| events := map (fun te => (fst te, Listed (snd te))) (events (m t));
       outcome := outcome (m t) |}.

End Flows.

Section RemainingMethods.

Context {types : ComponentTypes}.
Variable platform : Platform.
Variable full : FullWorld.
Variable this : EditorPage.

(** [getCalypsoURL], of [../../data-helper]. *)
Variable getCalypsoURL : jsstring -> jsstring.

Definition call_further (a : FurtherAction) : Flow (further_ret_type a) :=
  fun t =>
    {| events := [(t, InvokeFurther a)];
       outcome :=
         match respond_further full a t with
         | Pending => Pending
         | Settles d r => Settles (t + d) r
         end |}.

Definition forceDismissWelcomeTour : Flow unit :=
  frame <- lift (getEditorFrame (core full) this) ;;
  frame <- lift (non_null frame) ;;
  call_further (Frame_waitForFunction frame isWelcomeGuideStatusLoaded) ;;
  call_further (Frame_waitForFunction frame setShowWelcomeGuide_false).

Definition waitUntilLoaded : Flow (option Frame) :=
  frame <- lift (getEditorFrame (core full) this) ;;
  let titleLocator := selectors.editorTitle in
  call_further (FrameLocator_waitFor titleLocator) ;;
  forceDismissWelcomeTour ;;
  ret frame.

(** [visit( type )]; [None] is the call without argument. *)
Definition visit (type : option jsstring) : Flow (option Response) :=
  let type := match type with Some given => given | None => js "post" end in
  request <- call_further (Page_goto_url (getCalypsoURL type)) ;;
  waitUntilLoaded ;;
  ret request.

Definition addPattern (patternName : jsstring) : Flow unit :=
  lift (call (core full) Gutenberg_resetSelectedBlock) ;;
  lift (call (core full) Toolbar_openBlockInserter) ;;
  lift (call (core full) (Gutenberg_searchBlockInserter patternName)) ;;
  call_further
    (Gutenberg_selectBlockInserterResult_of_type patternName (js "pattern")) ;;
  let insertConfirmationToastLocator :=
    js ".components-snackbar__content:text('Block pattern " ++ dquote
      ++ patternName ++ dquote ++ js " inserted.')" in
  call_further (FrameLocator_waitFor insertConfirmationToastLocator).

Definition removeBlock (blockHandle : ElementHandle) : Flow unit :=
  call_further (ElementHandle_click blockHandle) ;;
  call_further (Keyboard_press (js "Backspace")).

Definition openSettings : Flow unit :=
  call_further Toolbar_openSettings.

Definition closeSettings : Flow unit :=
  if is_mobile platform then call_further Settings_closeSidebarForMobile
  else lift (call (core full) Toolbar_closeSettings).

Definition viewRevisions : Flow unit :=
  lift (Promise_race [ call (core full) (Settings_clickTab (js "Page"));
                       call (core full) (Settings_clickTab (js "Post")) ]) ;;
  call_further Settings_showRevisions.

Definition saveDraft : Flow unit :=
  call_further Toolbar_saveDraft.

Definition editorHasBlockWarnings : Flow bool :=
  call_further Gutenberg_editorHasBlockWarning.

End RemainingMethods.

(** ** Vocabulary of the further properties *)

Section FurtherVocabulary.

Context {types : ComponentTypes}.
Variable world : World.

(** Of the two tab clicks started at [t], the first to settle is rejected,
    with [e] after [d]. *)
Definition tab_rejected (t d : nat) (e : Err) : Prop :=
  (respond world (Settings_clickTab (js "Page")) t = Settles d (Rejected e)
   /\ settles_not_before d
        (respond world (Settings_clickTab (js "Post")) t))
  \/
  (respond world (Settings_clickTab (js "Post")) t = Settles d (Rejected e)
   /\ settles_after d (respond world (Settings_clickTab (js "Page")) t)).

(** The navigation and the check that [visitPublishedPost] starts. *)
Definition goto_published (url : jsstring) : Action :=
  Page_goto url (js "domcontentloaded").

Definition confirm_post_shown : Action :=
  reloadAndRetry_waitForSelector (js ".entry-content") (15 * 1000).

(** What [publish] does with the URL [u] it obtained. *)
Definition visiting (visit : bool) (u : URL) : Async unit :=
  if visit then visitPublishedPost world (href u) else resolve tt.

(** [with_visit] is [without] followed, if [without] has produced a URL,
    by the visit of that URL. *)
Definition followed_by_visit (visit : bool) (with_visit without : Run Event URL)
  : Prop :=
  with_visit
  = match outcome without with
    | Settles tv (Fulfilled u) =>
        {| events := events without ++ events (visiting visit u tv);
           outcome :=
             outcome (await (visiting visit u) (fun _ => resolve u) tv) |}
    | _ => without
    end.

(** The toast that confirms the insertion of a pattern. *)
Definition pattern_inserted_toast (patternName : jsstring) : jsstring :=
  js ".components-snackbar__content:text('Block pattern " ++ dquote
    ++ patternName ++ dquote ++ js " inserted.')".

(** Listed events, as they appear in a flow. *)
Definition listed (evs : list (nat * Event)) : list (nat * AnyEvent) :=
  map (fun te => (fst te, Listed (snd te))) evs.

End FurtherVocabulary.

(** ** Further scenarios *)

Module Sessions.

Import Scenario.

Definition calypso_url : jsstring := js "https://wordpress.com/post/example".

(** The iframe element is found, but has no content frame. *)
Definition detached_iframe : World :=
  {| respond := fun a _ =>
       match a return Promise (ret_type a) with
       | ElementHandle_contentFrame _ => Settles 1 (Fulfilled None)
       | a' => Settles 1 (Fulfilled (some_value a'))
       end;
     page_url := fun _ => calypso_url |}.

(** The lookup of the iframe resolves to [null]. *)
Definition null_handle : World :=
  {| respond := fun a _ =>
       match a return Promise (ret_type a) with
       | Locator_elementHandle _ _ => Settles 1 (Fulfilled None)
       | a' => Settles 1 (Fulfilled (some_value a'))
       end;
     page_url := fun _ => calypso_url |}.

(** The iframe element is found, but its frame cannot be reached. *)
Definition frame_unreachable : World :=
  {| respond := fun a _ =>
       match a return Promise (ret_type a) with
       | ElementHandle_contentFrame _ => Settles 2 (Rejected (OtherError 7))
       | a' => Settles 1 (Fulfilled (some_value a'))
       end;
     page_url := fun _ => calypso_url |}.

(** The toast link carries a relative [href]. *)
Definition relative_link : World :=
  {| respond := fun a _ =>
       match a return Promise (ret_type a) with
       | Frame_locator_getAttribute _ _ _ =>
           Settles 1 (Fulfilled (Some (js "/2021/11/hello")))
       | a' => Settles 1 (Fulfilled (some_value a'))
       end;
     page_url := fun _ => calypso_url |}.

(** No checklist panel opens on publishing. *)
Definition no_checklist : World :=
  {| respond := fun a _ =>
       match a return Promise (ret_type a) with
       | PublishPanel_panelIsOpen => Settles 1 (Fulfilled false)
       | a' => Settles 1 (Fulfilled (some_value a'))
       end;
     page_url := fun _ => calypso_url |}.

(** The published post is not publicly visible yet. *)
Definition post_not_visible : World :=
  {| respond := fun a _ =>
       match a return Promise (ret_type a) with
       | reloadAndRetry_waitForSelector _ _ =>
           Settles 45 (Rejected timed_out)
       | a' => Settles 1 (Fulfilled (some_value a'))
       end;
     page_url := fun _ => calypso_url |}.

(** The posts list is reached, but the exit button itself reports a
    timeout. *)
Definition exit_button_stuck : World :=
  {| respond := fun a _ =>
       match a return Promise (ret_type a) with
       | Page_waitForNavigation url =>
           if jsstring_eqb url (js "**/posts/**")
           then Settles 3 (Fulfilled (Some (response 200)))
           else Pending
       | NavSidebar_exitEditor => Settles 30 (Rejected timed_out)
       | a' => Settles 1 (Fulfilled (some_value a'))
       end;
     page_url := fun _ => calypso_url |}.

(** The Page tab is gone at once; the Post tab would answer a tick later. *)
Definition page_tab_detached : World :=
  {| respond := fun a _ =>
       match a return Promise (ret_type a) with
       | Settings_clickTab tab =>
           if jsstring_eqb tab (js "Post")
           then Settles 2 (Fulfilled tt)
           else Settles 1 (Rejected (OtherError 3))
       | a' => Settles 1 (Fulfilled (some_value a'))
       end;
     page_url := fun _ => calypso_url |}.

(** The Gutenframe gives up and redirects to WP Admin after two ticks. *)
Definition redirected : World :=
  {| respond := fun a _ => Settles 1 (Fulfilled (some_value a));
     page_url := fun t =>
       if t <? 3 then calypso_url
       else js "https://example.wordpress.com/wp-admin/post-new.php" |}.

Definition some_further_value (a : FurtherAction) : further_ret_type a :=
  match a return further_ret_type a with
  | Gutenberg_editorHasBlockWarning => false
  | Page_goto_url _ => Some (response 200)
  | _ => tt
  end.

(** Every further call answers after one tick, on top of [world]. *)
Definition over (world : World) : FullWorld :=
  {| core := world;
     respond_further := fun a _ =>
       Settles 1 (Fulfilled (some_further_value a)) |}.

(** The click on the block fails. *)
Definition block_gone : FullWorld :=
  {| core := cooperative;
     respond_further := fun a _ =>
       match a return Promise (further_ret_type a) with
       | ElementHandle_click _ => Settles 30 (Rejected timed_out)
       | a' => Settles 1 (Fulfilled (some_further_value a'))
       end |}.

(** The editor does not finish loading: its title never shows. *)
Definition title_missing : FullWorld :=
  {| core := cooperative;
     respond_further := fun a _ =>
       match a return Promise (further_ret_type a) with
       | FrameLocator_waitFor _ => Settles 30 (Rejected timed_out)
       | a' => Settles 1 (Fulfilled (some_further_value a'))
       end |}.

Definition calypso (type : jsstring) : jsstring :=
  js "https://wordpress.com/" ++ type.

End Sessions.

(** * Properties *)

(** ** Strings *)

Lemma jsstring_eqb_eq (a b : jsstring) : jsstring_eqb a b = true <-> a = b.
Proof.
  revert b; induction a as [|x a IH]; intros [|y b]; simpl;
    try (split; [discriminate | discriminate]); [tauto|].
  unfold code_unit_eqb. rewrite andb_true_iff, N.eqb_eq, IH.
  split; [intros [-> ->]; reflexivity | intros H; inversion H; auto].
Qed.

Lemma strict_neq_false (a b : jsstring) : strict_neq a b = false <-> a = b.
Proof.
  unfold strict_neq. rewrite negb_false_iff. apply jsstring_eqb_eq.
Qed.

Lemma strict_neq_true (a b : jsstring) : strict_neq a b = true <-> a <> b.
Proof.
  unfold strict_neq. rewrite negb_true_iff, <- not_true_iff_false.
  now rewrite jsstring_eqb_eq.
Qed.

Section Properties.

Context {types : ComponentTypes}.
Variable platform : Platform.
Variable world : World.
Variable this : EditorPage.

(** Unfolding one [await]. *)
Lemma await_fulfilled {A B} (m : Async A) (k : A -> Async B)
    (t t' : nat) (v : A) :
  outcome (m t) = Settles t' (Fulfilled v) ->
  await m k t =
    {| events := events (m t) ++ events (k v t');
       outcome := outcome (k v t') |}.
Proof. intros H. unfold await. rewrite H. reflexivity. Qed.

Lemma await_rejected {A B} (m : Async A) (k : A -> Async B)
    (t t' : nat) (e : Err) :
  outcome (m t) = Settles t' (Rejected e) ->
  await m k t =
    {| events := events (m t); outcome := Settles t' (Rejected e) |}.
Proof. intros H. unfold await. rewrite H. reflexivity. Qed.

Lemma await_pending {A B} (m : Async A) (k : A -> Async B) (t : nat) :
  outcome (m t) = Pending ->
  await m k t = {| events := events (m t); outcome := Pending |}.
Proof. intros H. unfold await. rewrite H. reflexivity. Qed.

Lemma await_resolve {A B} (v : A) (k : A -> Async B) (t : nat) :
  await (resolve v) k t = k v t.
Proof.
  unfold await, resolve. cbn [outcome events app].
  destruct (k v t). reflexivity.
Qed.

(** Unfolding one awaited call. *)
Lemma await_call_fulfilled {B} (a : Action) (k : ret_type a -> Async B)
    (t d : nat) (v : ret_type a) :
  respond world a t = Settles d (Fulfilled v) ->
  await (call world a) k t =
    {| events := (t, Invoke a) :: events (k v (t + d));
       outcome := outcome (k v (t + d)) |}.
Proof.
  intros H. unfold await, call. simpl. rewrite H. reflexivity.
Qed.

Lemma await_call_rejected {B} (a : Action) (k : ret_type a -> Async B)
    (t d : nat) (e : Err) :
  respond world a t = Settles d (Rejected e) ->
  await (call world a) k t =
    {| events := [(t, Invoke a)]; outcome := Settles (t + d) (Rejected e) |}.
Proof.
  intros H. unfold await, call. simpl. rewrite H. reflexivity.
Qed.

Lemma await_call_pending {B} (a : Action) (k : ret_type a -> Async B)
    (t : nat) :
  respond world a t = Pending ->
  await (call world a) k t =
    {| events := [(t, Invoke a)]; outcome := Pending |}.
Proof.
  intros H. unfold await, call. simpl. rewrite H. reflexivity.
Qed.

(** One step of a method body: the awaited call is answered by [H]. *)
Ltac awaited H :=
  rewrite (await_call_fulfilled _ _ _ H); cbn [events outcome].

(** C1. When the title is written and read back as [observed],
    [enterTitle( s )] has done exactly these two calls; it completes
    normally exactly when [observed] is [s.trim()], and is otherwise
    rejected with the verification error naming both. *)
Theorem enterTitle_verifies (s observed : jsstring) (t d1 d2 : nat) :
  respond world (Gutenberg_enterTitle s) t = Settles d1 (Fulfilled tt) ->
  respond world Gutenberg_getTitle (t + d1) = Settles d2 (Fulfilled observed) ->
  let run := enterTitle world s t in
  events run = [ (t, Invoke (Gutenberg_enterTitle s));
                 (t + d1, Invoke Gutenberg_getTitle) ]
  /\ (outcome run = Settles (t + d1 + d2) (Fulfilled tt)
      <-> observed = trim s)
  /\ (observed <> trim s ->
      outcome run
      = Settles (t + d1 + d2) (Rejected (VerificationMismatch observed (trim s)))).
Proof.
  intros H1 H2 run. subst run. unfold enterTitle. cbn [bind Monad_Async].
  awaited H1.
  awaited H2.
  destruct (strict_neq observed (trim s)) eqn:E.
  - apply strict_neq_true in E. cbn. repeat split; try easy.
  - apply strict_neq_false in E. cbn. repeat split; try easy.
Qed.

(** X19. Whatever the collaborators do, [enterTitle( s )] completes
    normally only after a read-back equal to [s.trim()]. *)
Lemma enterTitle_fulfilled_only_if_verified (s : jsstring) (t T : nat) :
  outcome (enterTitle world s t) = Settles T (Fulfilled tt) ->
  exists (t' d : nat),
    respond world Gutenberg_getTitle t' = Settles d (Fulfilled (trim s))
    /\ T = t' + d.
Proof.
  unfold enterTitle. cbn [bind Monad_Async]. unfold await, call.
  cbn [outcome].
  destruct (respond world (Gutenberg_enterTitle s) t) as [|d1 [[]|e]];
    cbn [outcome]; try discriminate.
  destruct (respond world Gutenberg_getTitle (t + d1))
    as [|d2 [observed|e]] eqn:E; cbn [outcome]; try discriminate.
  destruct (strict_neq observed (trim s)) eqn:Ev;
    cbn [outcome raise MonadExc_Async throw ret Monad_Async resolve];
    intros H; inversion H; subst.
  apply strict_neq_false in Ev. subst observed.
  exists (t + d1), d2. split; [exact E | reflexivity].
Qed.

(** C2. When the text is written and the body reads back as something
    else, [enterText( text )] still completes normally: the mismatch
    message is built and dropped, and nothing more is done. *)
Theorem enterText_mismatch_is_silent (text observed : jsstring)
    (t d1 d2 : nat) :
  respond world (Gutenberg_enterText text) t = Settles d1 (Fulfilled tt) ->
  respond world Gutenberg_getText (t + d1) = Settles d2 (Fulfilled observed) ->
  observed <> text ->
  enterText world text t
  = {| events := [ (t, Invoke (Gutenberg_enterText text));
                   (t + d1, Invoke Gutenberg_getText) ];
       outcome := Settles (t + d1 + d2) (Fulfilled tt) |}.
Proof.
  intros H1 H2 Hne. unfold enterText. cbn [bind Monad_Async].
  awaited H1.
  awaited H2.
  destruct (strict_neq text observed); reflexivity.
Qed.

Lemma await_page_url {B} (k : jsstring -> Async B) (t : nat) :
  await (page_url_now world) k t = k (page_url world t) t.
Proof.
  unfold await, page_url_now. cbn [outcome events app].
  destruct (k (page_url world t) t). reflexivity.
Qed.

(** C4. Outside strict mode and on a URL containing [/wp-admin],
    [getEditorFrame] returns the top-level frame at once and starts no
    search.  When the search is started and fails, strict mode rejects with
    the not-found error; otherwise a notice is logged and the top-level
    frame is returned. *)
Theorem getEditorFrame_resolution (t : nat) :
  (requiresGutenframe this = false ->
   includes (js "/wp-admin") (page_url world t) = true ->
   getEditorFrame world this t
   = {| events := []; outcome := Settles t (Fulfilled (Some mainFrame)) |})
  /\
  (forall (d : nat) (e : Err),
     requiresGutenframe this = true
       \/ includes (js "/wp-admin") (page_url world t) = false ->
     respond world iframe_search t = Settles d (Rejected e) ->
     getEditorFrame world this t
     = if requiresGutenframe this then
         {| events := [ (t, Invoke iframe_search) ];
            outcome := Settles (t + d) (Rejected SurfaceNotFound) |}
       else
         {| events := [ (t, Invoke iframe_search); (t + d, degraded_notice) ];
            outcome := Settles (t + d) (Fulfilled (Some mainFrame)) |}).
Proof.
  split.
  - intros Hs Hu. unfold getEditorFrame. rewrite Hs.
    cbn [negb bind Monad_Async]. rewrite await_page_url, Hu. reflexivity.
  - intros d e Hsearch Hrej. unfold getEditorFrame, iframe_search in *.
    assert (Hlocate :
      forall k : Async (option Frame),
        (if negb (requiresGutenframe this)
         then url <- page_url_now world ;;
              (if includes (js "/wp-admin") url
               then ret (Some mainFrame) else k)
         else k) t = k t).
    { intros k. destruct (requiresGutenframe this); [reflexivity|].
      destruct Hsearch as [Hs|Hu]; [discriminate|].
      cbn [negb bind Monad_Async]. rewrite await_page_url, Hu.
      reflexivity. }
    rewrite Hlocate. cbn [catch MonadExc_Async bind Monad_Async].
    unfold try_catch. rewrite (await_call_rejected _ _ _ Hrej).
    cbn [outcome events].
    destruct (requiresGutenframe this); reflexivity.
Qed.

(** C5. [previewAsMobile] under a viewport other than [mobile], and
    [previewAsDesktop] under [mobile], are rejected with the mode error at
    once, having started no call. *)
Theorem preview_wrong_viewport_fails_fast (t : nat) :
  (VIEWPORT_NAME platform <> js "mobile" ->
   previewAsMobile platform world t
   = {| events := [];
        outcome :=
          Settles t
            (Rejected (ModeMismatch (js "mobile") (VIEWPORT_NAME platform))) |})
  /\
  (VIEWPORT_NAME platform = js "mobile" ->
   forall target : PreviewOptions,
     previewAsDesktop platform world target t
     = {| events := [];
          outcome :=
            Settles t
              (Rejected
                 (ModeMismatch (js "non-mobile") (VIEWPORT_NAME platform))) |}).
Proof.
  split.
  - intros Hv. unfold previewAsMobile, is_mobile.
    destruct (jsstring_eqb (VIEWPORT_NAME platform) (js "mobile")) eqn:E.
    + apply jsstring_eqb_eq in E. contradiction.
    + reflexivity.
  - intros Hv target. unfold previewAsDesktop, is_mobile.
    apply jsstring_eqb_eq in Hv. rewrite Hv. reflexivity.
Qed.

Lemma is_mobile_true :
  is_mobile platform = true <-> VIEWPORT_NAME platform = js "mobile".
Proof. apply jsstring_eqb_eq. Qed.

(** C6. When the five steps succeed, [addBlock] has reset the selection,
    opened the inserter, searched by name, selected the result and fetched
    the block's handle, in this order; it then closes the inserter exactly
    when the viewport is not [mobile], and returns the handle. *)
Theorem addBlock_sequence (blockName blockEditorSelector : jsstring)
    (blockHandle : ElementHandle) (t d1 d2 d3 d4 d5 : nat) :
  respond world Gutenberg_resetSelectedBlock t = Settles d1 (Fulfilled tt) ->
  respond world Toolbar_openBlockInserter (t + d1)
  = Settles d2 (Fulfilled tt) ->
  respond world (Gutenberg_searchBlockInserter blockName) (t + d1 + d2)
  = Settles d3 (Fulfilled tt) ->
  respond world (Gutenberg_selectBlockInserterResult blockName)
    (t + d1 + d2 + d3)
  = Settles d4 (Fulfilled tt) ->
  respond world (Gutenberg_getSelectedBlockElementHandle blockEditorSelector)
    (t + d1 + d2 + d3 + d4)
  = Settles d5 (Fulfilled blockHandle) ->
  let run := addBlock platform world blockName blockEditorSelector t in
  let done := t + d1 + d2 + d3 + d4 + d5 in
  events run
  = [ (t, Invoke Gutenberg_resetSelectedBlock);
      (t + d1, Invoke Toolbar_openBlockInserter);
      (t + d1 + d2, Invoke (Gutenberg_searchBlockInserter blockName));
      (t + d1 + d2 + d3,
       Invoke (Gutenberg_selectBlockInserterResult blockName));
      (t + d1 + d2 + d3 + d4,
       Invoke (Gutenberg_getSelectedBlockElementHandle blockEditorSelector)) ]
    ++ (if is_mobile platform then []
        else [ (done, Invoke Toolbar_closeBlockInserter) ])
  /\ (VIEWPORT_NAME platform = js "mobile" ->
      outcome run = Settles done (Fulfilled blockHandle))
  /\ (VIEWPORT_NAME platform <> js "mobile" ->
      forall d6 : nat,
        respond world Toolbar_closeBlockInserter done
        = Settles d6 (Fulfilled tt) ->
        outcome run = Settles (done + d6) (Fulfilled blockHandle)).
Proof.
  intros H1 H2 H3 H4 H5 run done. subst run done. unfold addBlock.
  cbn [bind Monad_Async].
  awaited H1.
  awaited H2.
  awaited H3.
  awaited H4.
  awaited H5.
  destruct (is_mobile platform) eqn:Em.
  - apply is_mobile_true in Em. cbn. repeat split; try reflexivity.
    intros Hne. contradiction.
  - assert (Hne : VIEWPORT_NAME platform <> js "mobile").
    { intros Hm. apply is_mobile_true in Hm. congruence. }
    cbn [negb]. split; [|split].
    + unfold await, call. cbn [events outcome].
      destruct (respond world Toolbar_closeBlockInserter _)
        as [|d6 [[]|e]]; reflexivity.
    + intros Hm. contradiction.
    + intros _ d6 H6. rewrite (await_call_fulfilled _ _ _ H6). reflexivity.
Qed.

(** X20. Whatever the collaborators do, under the [mobile] viewport
    [addBlock] never asks for the inserter to be closed. *)
Lemma addBlock_mobile_never_closes (blockName blockEditorSelector : jsstring)
    (t : nat) :
  VIEWPORT_NAME platform = js "mobile" ->
  forall t' : nat,
    ~ In (t', Invoke Toolbar_closeBlockInserter)
         (events (addBlock platform world blockName blockEditorSelector t)).
Proof.
  intros Hm t'. apply is_mobile_true in Hm. unfold addBlock. rewrite Hm.
  cbn [negb bind Monad_Async ret]. unfold await, call, resolve.
  cbn [outcome events].
  repeat match goal with
         | |- context [respond world ?a ?u] =>
             destruct (respond world a u) as [|? [?|?]];
             cbn [outcome events app]
         end;
    cbn [In]; intuition discriminate.
Qed.

(** C9. [closeAllPanels] starts the close of the publish panel, of the
    navigation sidebar and of the settings panel, whatever becomes of each;
    it is never rejected; and once the three have settled, fulfilled or
    rejected, it completes normally. *)
Theorem closeAllPanels_tolerates_failures (t : nat) :
  let run := closeAllPanels world t in
  events run
  = [ (t, Invoke PublishPanel_closePanel);
      (t, Invoke NavSidebar_closeSidebar);
      (t, Invoke Toolbar_closeSettings) ]
  /\ (forall (T : nat) (e : Err), outcome run <> Settles T (Rejected e))
  /\ (forall (d1 d2 d3 : nat) (r1 r2 r3 : Settled unit),
        respond world PublishPanel_closePanel t = Settles d1 r1 ->
        respond world NavSidebar_closeSidebar t = Settles d2 r2 ->
        respond world Toolbar_closeSettings t = Settles d3 r3 ->
        outcome run
        = Settles (t + Nat.max d1 (Nat.max d2 d3)) (Fulfilled tt)).
Proof.
  intros run. subst run. unfold closeAllPanels, Promise_allSettled.
  cbn [bind Monad_Async]. unfold await, allSettled_outcome, started, call.
  cbn [map events outcome events_of List.concat app all_settled].
  split; [|split].
  - destruct (respond world PublishPanel_closePanel t) as [|d1 r1];
      destruct (respond world NavSidebar_closeSidebar t) as [|d2 r2];
      destruct (respond world Toolbar_closeSettings t) as [|d3 r3];
      reflexivity.
  - intros T e.
    destruct (respond world PublishPanel_closePanel t) as [|d1 r1];
      destruct (respond world NavSidebar_closeSidebar t) as [|d2 r2];
      destruct (respond world Toolbar_closeSettings t) as [|d3 r3];
      cbn [all_settled outcome]; discriminate.
  - intros d1 d2 d3 r1 r2 r3 -> -> ->. cbn [all_settled outcome].
    cbn [ret Monad_Async resolve outcome]. f_equal. lia.
Qed.

(** C10. [unpublish] switches to draft, then, on the editor frame, clicks
    the dialog's OK button and waits for the notice, in this order.  It
    completes only when the notice is found: when the wait is rejected,
    as by its timeout, [unpublish] is rejected with the same error. *)
Theorem unpublish_waits_for_notice (frame : Frame) (t d1 d3 tf : nat) :
  respond world Toolbar_switchToDraft t = Settles d1 (Fulfilled tt) ->
  outcome (getEditorFrame world this (t + d1))
  = Settles tf (Fulfilled (Some frame)) ->
  respond world (Frame_click frame confirm_dialog_OK) tf
  = Settles d3 (Fulfilled tt) ->
  let run := unpublish world this t in
  let wait := Frame_waitForSelector frame reverted_to_draft_notice in
  events run
  = [ (t, Invoke Toolbar_switchToDraft) ]
    ++ events (getEditorFrame world this (t + d1))
    ++ [ (tf, Invoke (Frame_click frame confirm_dialog_OK));
         (tf + d3, Invoke wait) ]
  /\ (forall (d4 : nat) (e : Err),
        respond world wait (tf + d3) = Settles d4 (Rejected e) ->
        outcome run = Settles (tf + d3 + d4) (Rejected e))
  /\ (forall (d4 : nat) (found : option ElementHandle),
        respond world wait (tf + d3) = Settles d4 (Fulfilled found) ->
        outcome run = Settles (tf + d3 + d4) (Fulfilled tt))
  /\ (respond world wait (tf + d3) = Pending -> outcome run = Pending).
Proof.
  intros H1 Hf H3 run wait. subst run wait. unfold unpublish.
  cbn [bind Monad_Async].
  awaited H1.
  rewrite (await_fulfilled _ _ _ Hf). cbn [non_null events outcome].
  cbn [ret Monad_Async]. rewrite await_resolve.
  fold confirm_dialog_OK reverted_to_draft_notice.
  awaited H3.
  repeat split.
  - cbn [app]. do 2 f_equal. unfold await, call. cbn [events outcome].
    destruct (respond world _ (tf + d3)) as [|d4 [v|e]]; reflexivity.
  - intros d4 e H4. rewrite (await_call_rejected _ _ _ H4). reflexivity.
  - intros d4 found H4. rewrite (await_call_fulfilled _ _ _ H4). reflexivity.
  - intros H4. rewrite (await_call_pending _ _ _ H4). reflexivity.
Qed.

(** ** Races *)

Lemma outcome_call (a : Action) (t : nat) :
  outcome (call world a t)
  = match respond world a t with
    | Pending => Pending
    | Settles d r => Settles (t + d) r
    end.
Proof. reflexivity. Qed.

Lemma settles_after_call (a : Action) (t d : nat) :
  settles_after d (respond world a t) ->
  settles_after (t + d) (outcome (call world a t)).
Proof.
  rewrite outcome_call. destruct (respond world a t); simpl; [auto|lia].
Qed.

Lemma earlier_left {A} (T : nat) (r : Settled A) (q : Promise A) :
  settles_not_before T q -> earlier (Settles T r) q = Settles T r.
Proof.
  destruct q as [|u r']; simpl; [reflexivity|]. intros H.
  destruct (Nat.ltb_spec u T); [lia | reflexivity].
Qed.

Lemma earlier_right {A} (T : nat) (r : Settled A) (p : Promise A) :
  settles_after T p -> earlier p (Settles T r) = Settles T r.
Proof.
  destruct p as [|u r']; simpl; [reflexivity|]. intros H.
  destruct (Nat.ltb_spec T u); [reflexivity | lia].
Qed.

Lemma earlier_pending {A} (p : Promise A) : earlier p Pending = p.
Proof. destruct p; reflexivity. Qed.

Lemma settles_after_weaken {A} (T : nat) (p : Promise A) :
  settles_after T p -> settles_not_before T p.
Proof. destruct p; simpl; [auto|lia]. Qed.

Lemma settles_after_earlier {A} (T : nat) (p q : Promise A) :
  settles_after T p -> settles_after T q -> settles_after T (earlier p q).
Proof.
  destruct p as [|u r], q as [|u' r']; simpl; auto.
  destruct (u' <? u); auto.
Qed.

(** The race of the two tab clicks, as each settings workflow starts it. *)
Lemma tab_race_resolved (steps : Async unit) (t d : nat) :
  tab_resolved world t d ->
  await (Promise_race [ call world (Settings_clickTab (js "Page"));
                        call world (Settings_clickTab (js "Post")) ])
        (fun _ => steps) t
  = {| events := tab_clicks t ++ events (steps (t + d));
       outcome := outcome (steps (t + d)) |}.
Proof.
  intros Hres.
  assert (Hrace :
    outcome (Promise_race [ call world (Settings_clickTab (js "Page"));
                            call world (Settings_clickTab (js "Post")) ] t)
    = Settles (t + d) (Fulfilled tt)).
  { unfold Promise_race, started, race_outcome.
    cbn [map outcome fold_right]. rewrite earlier_pending.
    destruct Hres as [[Hw Hl]|[Hw Hl]]; apply settles_after_call in Hl.
    - rewrite (outcome_call (Settings_clickTab (js "Page"))), Hw.
      apply earlier_left, settles_after_weaken, Hl.
    - rewrite (outcome_call (Settings_clickTab (js "Post"))), Hw.
      apply earlier_right, Hl. }
  rewrite (await_fulfilled _ _ _ Hrace). reflexivity.
Qed.

Lemma tab_race_begins (steps : Async unit) :
  begins_with_tab_resolution world
    (await (Promise_race [ call world (Settings_clickTab (js "Page"));
                           call world (Settings_clickTab (js "Post")) ])
           (fun _ => steps))
    steps.
Proof.
  intros t. split.
  - unfold await.
    destruct (outcome (Promise_race _ t)) as [|t' [v|e]];
      cbn [events]; [exists [] | eexists | exists []]; reflexivity.
  - intros d Hres. apply tab_race_resolved, Hres.
Qed.

(** C8. [schedule], [setArticleVisibility], [selectCategory], [addTag] and
    [setURLSlug] all start by clicking the Page tab and the Post tab
    together; when one click succeeds first, each goes on, from that
    moment, to expand its section and apply its value. *)
Theorem settings_workflows_resolve_tab_first
    (date : Schedule) (visibility : PrivacyOptions)
    (password : option jsstring) (name tag slug : jsstring) :
  begins_with_tab_resolution world (schedule world date)
    (call world (Settings_expandSection (js "Status & Visibility")) ;;
     call world Settings_openSchedule ;;
     call world (Settings_setScheduleDetails date) ;;
     call world Settings_closeSchedule)
  /\ begins_with_tab_resolution world
       (setArticleVisibility world visibility password)
       (call world (Settings_expandSection (js "Status & Visibility")) ;;
        call world Settings_openVisibilityOptions ;;
        call world (Settings_selectVisibility visibility password) ;;
        call world Settings_closeVisibilityOptions)
  /\ begins_with_tab_resolution world (selectCategory world name)
       (call world (Settings_expandSection (js "Categories")) ;;
        call world (Settings_checkCategory name))
  /\ begins_with_tab_resolution world (addTag world tag)
       (call world (Settings_expandSection (js "Tags")) ;;
        call world (Settings_enterTag tag))
  /\ begins_with_tab_resolution world (setURLSlug world slug)
       (call world (Settings_expandSection (js "Permalink")) ;;
        call world (Settings_enterUrlSlug slug)).
Proof.
  repeat split; apply tab_race_begins.
Qed.

(** A settings workflow whose first tab click to settle is a rejection is
    rejected with it, having expanded nothing. *)
Lemma tab_race_rejected (steps : Async unit) (t d : nat) (e : Err) :
  respond world (Settings_clickTab (js "Page")) t = Settles d (Rejected e) ->
  settles_not_before d (respond world (Settings_clickTab (js "Post")) t) ->
  await (Promise_race [ call world (Settings_clickTab (js "Page"));
                        call world (Settings_clickTab (js "Post")) ])
        (fun _ => steps) t
  = {| events := tab_clicks t; outcome := Settles (t + d) (Rejected e) |}.
Proof.
  intros Hw Hl.
  assert (Hrace :
    outcome (Promise_race [ call world (Settings_clickTab (js "Page"));
                            call world (Settings_clickTab (js "Post")) ] t)
    = Settles (t + d) (Rejected e)).
  { unfold Promise_race, started, race_outcome.
    cbn [map outcome fold_right]. rewrite earlier_pending.
    rewrite (outcome_call (Settings_clickTab (js "Page"))), Hw.
    rewrite earlier_left; [reflexivity|].
    rewrite (outcome_call (Settings_clickTab (js "Post"))).
    destruct (respond world (Settings_clickTab (js "Post")) t);
      simpl in *; [auto|lia]. }
  rewrite (await_rejected _ _ _ Hrace). reflexivity.
Qed.

Lemma unknown_run {A} (m : Async A) (t : nat) :
  unknown m t
  = {| events := events (m t);
       outcome :=
         match outcome (m t) with
         | Pending => Pending
         | Settles T (Fulfilled _) => Settles T (Fulfilled tt)
         | Settles T (Rejected e) => Settles T (Rejected e)
         end |}.
Proof.
  unfold unknown. cbn [bind Monad_Async]. unfold await.
  destruct (outcome (m t)) as [|T [v|e]]; try reflexivity.
  cbn [ret Monad_Async resolve events outcome]. now rewrite app_nil_r.
Qed.

Lemma destinations_distinct :
  js "**/home/**" <> js "**/posts/**"
  /\ js "**/home/**" <> js "**/pages/**"
  /\ js "**/posts/**" <> js "**/pages/**".
Proof. repeat split; intros H; cbv in H; discriminate H. Qed.

(** C7. After the navigation sidebar is opened and the viewport's exit
    action has gone through, [exitEditor] completes at the moment the
    navigation to one of the three destinations is observed, though the
    waits for the other two settle later or never. *)
Theorem exitEditor_first_destination (pattern : jsstring)
    (t d0 da dn : nat) (r : option Response) :
  In pattern destinations ->
  respond world NavSidebar_openSidebar t = Settles d0 (Fulfilled tt) ->
  exit_action_promise platform world (t + d0)
  = Settles (t + d0 + da) (Fulfilled tt) ->
  respond world (Page_waitForNavigation pattern) (t + d0)
  = Settles dn (Fulfilled r) ->
  (forall other : jsstring,
     In other destinations -> other <> pattern ->
     settles_after dn
       (respond world (Page_waitForNavigation other) (t + d0))) ->
  da <= dn ->
  exitEditor platform world t
  = {| events :=
         (t, Invoke NavSidebar_openSidebar)
         :: map (fun url => (t + d0, Invoke (Page_waitForNavigation url)))
              destinations
         ++ [ (t + d0, Invoke (exit_action platform)) ];
       outcome := Settles (t + d0 + dn) (Fulfilled tt) |}.
Proof.
  intros Hin H0 Ha Hn Hothers Hle.
  destruct destinations_distinct as (Hhp & Hhg & Hpg).
  assert (Hrace :
    race_outcome
      (map (fun url =>
              outcome (call world (Page_waitForNavigation url) (t + d0))
              : Promise (option Response))
           destinations)
    = Settles (t + d0 + dn) (Fulfilled r)).
  { unfold destinations in *. cbn [map race_outcome fold_right].
    rewrite earlier_pending.
    assert (Hlater : forall other,
      In other [js "**/home/**"; js "**/posts/**"; js "**/pages/**"] ->
      other <> pattern ->
      settles_after (t + d0 + dn)
        (outcome (call world (Page_waitForNavigation other) (t + d0)))).
    { intros other Ho Hne. apply settles_after_call. auto. }
    assert (Hwin :
      outcome (call world (Page_waitForNavigation pattern) (t + d0))
      = Settles (t + d0 + dn) (Fulfilled r)).
    { rewrite outcome_call, Hn. reflexivity. }
    destruct Hin as [<-|[<-|[<-|[]]]]; rewrite Hwin.
    - apply earlier_left, settles_after_weaken, settles_after_earlier;
        apply Hlater; simpl; auto.
    - rewrite earlier_left.
      + apply earlier_right, Hlater; simpl; auto.
      + apply settles_after_weaken, Hlater; simpl; auto.
    - rewrite earlier_right by (apply Hlater; simpl; auto).
      apply earlier_right, Hlater; simpl; auto. }
  unfold exitEditor. cbn [bind Monad_Async].
  rewrite (await_call_fulfilled _ _ _ H0).
  set (race := Promise_race _).
  assert (Hr : outcome (race (t + d0)) = Settles (t + d0 + dn) (Fulfilled r))
    by exact Hrace.
  assert (Hall : forall (A : Type) (exit : Async A) (v : A),
    outcome (exit (t + d0)) = Settles (t + d0 + da) (Fulfilled v) ->
    await (Promise_all ([unknown race] ++ [unknown exit]))
          (fun _ => ret tt) (t + d0)
    = {| events := events (race (t + d0)) ++ events (exit (t + d0));
         outcome := Settles (t + d0 + dn) (Fulfilled tt) |}).
  { intros A exit v He.
    assert (Ho :
      outcome (Promise_all ([unknown race] ++ [unknown exit]) (t + d0))
      = Settles (t + d0 + dn) (Fulfilled [tt; tt])).
    { unfold Promise_all, started. cbn [app map outcome].
      rewrite !unknown_run. cbn [outcome]. rewrite Hr, He.
      unfold all_outcome, first_rejection.
      cbn [map rejection_of race_outcome fold_right earlier all_fulfilled].
      f_equal. lia. }
    rewrite (await_fulfilled _ _ _ Ho).
    cbn [ret Monad_Async resolve events outcome]. rewrite app_nil_r.
    f_equal. unfold Promise_all, started, events_of.
    cbn [app map events List.concat]. rewrite !unknown_run. cbn [events].
    rewrite app_nil_r. reflexivity. }
  unfold exit_action, exit_action_promise in *.
  destruct (is_mobile platform); cbv beta iota zeta;
    pose proof (Hall _ _ _ Ha) as Hrun;
    match goal with
    | |- context [events ?X] => rewrite (Hrun : X = _)
    end; reflexivity.
Qed.

(** ** Publishing *)

(** What the toast source returns was accepted by the URL parser. *)
Lemma toast_url_is_parsed (t T : nat) (u : URL) :
  outcome (getPublishedURLFromToast platform world this t)
  = Settles T (Fulfilled u) ->
  exists x : option jsstring, URL_parse platform (ToString x) = Some u.
Proof.
  unfold getPublishedURLFromToast. cbn [bind Monad_Async].
  unfold await at 1.
  destruct (outcome (getEditorFrame world this t)) as [|tf [[f|]|e]];
    cbn [outcome non_null]; try discriminate.
  cbn [ret Monad_Async]. rewrite await_resolve. unfold await.
  rewrite outcome_call.
  destruct (respond world _ tf) as [|d [x|e]];
    cbn [outcome]; try discriminate.
  unfold new_URL. destruct (URL_parse platform (ToString x)) eqn:E;
    cbn [outcome ret Monad_Async resolve raise MonadExc_Async throw];
    intros H; inversion H; subst. exists x. exact E.
Qed.

(** A link without [href] makes the toast source fail, not return. *)
Lemma toast_null_href_rejected (frame : Frame) (t tf d : nat) :
  URL_parse platform (js "null") = None ->
  outcome (getEditorFrame world this t) = Settles tf (Fulfilled (Some frame)) ->
  respond world
    (Frame_locator_getAttribute frame selectors.toastViewPostLink (js "href"))
    tf
  = Settles d (Fulfilled None) ->
  outcome (getPublishedURLFromToast platform world this t)
  = Settles (tf + d) (Rejected (TypeError (js "Invalid URL"))).
Proof.
  intros Hnull Hf Ha. unfold getPublishedURLFromToast.
  cbn [bind Monad_Async]. rewrite (await_fulfilled _ _ _ Hf).
  cbn [outcome non_null ret Monad_Async]. rewrite await_resolve.
  rewrite (await_call_fulfilled _ _ _ Ha). cbn [outcome].
  unfold new_URL. cbn [ToString]. rewrite Hnull. reflexivity.
Qed.

Lemma await_then_resolve {A B} (m : Async A) (v w : B) (t T : nat) :
  outcome (await m (fun _ => resolve v) t) = Settles T (Fulfilled w) ->
  v = w.
Proof.
  unfold await. destruct (outcome (m t)) as [|t' [x|e]];
    cbn [outcome resolve]; intros H; inversion H; reflexivity.
Qed.

(** C3. Once the publish button, and the checklist panel if it opened,
    have gone through, [publish()] settles as the first to settle of the
    panel's readout and the toast link.  Whichever of the two is fulfilled
    first, its URL is returned; a URL that is returned is the panel's or
    one the URL parser accepted, and a toast link without [href] is
    rejected; when both sources time out, [publish()] is rejected with a
    timeout. *)
Theorem publish_returns_first_source (t d1 d2 d3 : nat) (panelIsOpen : bool) :
  respond world Toolbar_clickPublish t = Settles d1 (Fulfilled tt) ->
  respond world PublishPanel_panelIsOpen (t + d1)
  = Settles d2 (Fulfilled panelIsOpen) ->
  (if panelIsOpen
   then respond world PublishPanel_publish (t + d1 + d2)
        = Settles d3 (Fulfilled tt)
   else d3 = 0) ->
  let start := t + d1 + d2 + d3 in
  let panel := outcome (call world PublishPanel_getPublishedURL start) in
  let toast := outcome (getPublishedURLFromToast platform world this start) in
  let run := publish platform world this false t in
  outcome run = earlier panel toast
  /\ (forall (T : nat) (u : URL),
        panel = Settles T (Fulfilled u) -> settles_not_before T toast ->
        outcome run = Settles T (Fulfilled u))
  /\ (forall (T : nat) (u : URL),
        toast = Settles T (Fulfilled u) -> settles_after T panel ->
        outcome run = Settles T (Fulfilled u))
  /\ (forall (T : nat) (u : URL),
        outcome run = Settles T (Fulfilled u) ->
        panel = Settles T (Fulfilled u)
        \/ (toast = Settles T (Fulfilled u)
            /\ exists x : option jsstring,
                 URL_parse platform (ToString x) = Some u))
  /\ (forall (visit : bool) (T : nat) (u : URL),
        outcome (publish platform world this visit t)
        = Settles T (Fulfilled u) ->
        exists T', earlier panel toast = Settles T' (Fulfilled u))
  /\ (URL_parse platform (js "null") = None ->
      forall (frame : Frame) (tf d : nat),
        outcome (getEditorFrame world this start)
        = Settles tf (Fulfilled (Some frame)) ->
        respond world
          (Frame_locator_getAttribute frame selectors.toastViewPostLink
             (js "href")) tf
        = Settles d (Fulfilled None) ->
        toast = Settles (tf + d) (Rejected (TypeError (js "Invalid URL"))))
  /\ (forall (Tp Tt : nat) (mp mt : jsstring),
        panel = Settles Tp (Rejected (TimeoutError mp)) ->
        toast = Settles Tt (Rejected (TimeoutError mt)) ->
        exists (T : nat) (m : jsstring),
          outcome run = Settles T (Rejected (TimeoutError m))).
Proof.
  intros H1 H2 H3 start panel toast run.
  set (race := Promise_race [ call world PublishPanel_getPublishedURL;
                              getPublishedURLFromToast platform world this ]).
  assert (Hrace : outcome (race start) = earlier panel toast).
  { unfold race, Promise_race, started, race_outcome.
    cbn [map outcome fold_right]. now rewrite earlier_pending. }
  assert (Hrun : forall visit : bool,
    outcome (publish platform world this visit t)
    = outcome
        (await race
           (fun u => await (if visit
                            then visitPublishedPost world (href u)
                            else resolve tt)
                           (fun _ => resolve u)) start)).
  { intros visit. unfold publish. cbn [bind Monad_Async ret].
    rewrite (await_call_fulfilled _ _ _ H1). cbn [outcome].
    rewrite (await_call_fulfilled _ _ _ H2). cbn [outcome].
    subst start. destruct panelIsOpen.
    - rewrite (await_call_fulfilled _ _ _ H3). reflexivity.
    - subst d3. rewrite await_resolve. now rewrite Nat.add_0_r. }
  assert (Hout : outcome run = earlier panel toast).
  { subst run. rewrite Hrun. unfold await at 1. rewrite Hrace.
    destruct (earlier panel toast) as [|T [u|e]]; reflexivity. }
  split; [exact Hout|].
  split.
  { intros T u Hp Ht. rewrite Hout, Hp. now apply earlier_left. }
  split.
  { intros T u Ht Hp. rewrite Hout, Ht. now apply earlier_right. }
  split.
  { intros T u Hu. rewrite Hout in Hu.
    destruct panel as [|Tp rp], toast as [|Tt rt] eqn:Etoast;
      cbn [earlier] in Hu; try discriminate; auto.
    - right. split; [exact Hu|]. subst toast.
      apply (toast_url_is_parsed start (T := T)). now rewrite Etoast.
    - destruct (Tt <? Tp); auto.
      right. split; [exact Hu|]. subst toast.
      apply (toast_url_is_parsed start (T := T)). now rewrite Etoast. }
  split.
  { intros visit T u Hu. rewrite Hrun in Hu. unfold await at 1 in Hu.
    rewrite Hrace in Hu.
    destruct (earlier panel toast) as [|T' [u'|e]]; try discriminate.
    apply await_then_resolve in Hu. subst u'. now exists T'. }
  split.
  { intros Hnull frame tf d Hf Ha.
    apply (toast_null_href_rejected _ Hnull Hf Ha). }
  intros Tp Tt mp mt Hp Ht. rewrite Hout, Hp, Ht. cbn [earlier].
  destruct (Tt <? Tp); eauto.
Qed.

End Properties.

(** * The properties on the scenarios *)

Import Scenario.

(** The title [  Hello  ] reads back as [Hello]: verified. *)
Lemma enterTitle_verifies_witness :
  outcome (enterTitle (title_reads (js "Hello")) (js "  Hello  ") 0)
  = Settles 2 (Fulfilled tt).
Proof.
  apply (@enterTitle_verifies _ (title_reads (js "Hello")) (js "  Hello  ")
           (js "Hello") 0 1 1 eq_refl eq_refl).
  reflexivity.
Defined.

(** The title [Hello] reads back as [Hello!]: rejected. *)
Example enterTitle_mismatch :
  outcome (enterTitle (title_reads (js "Hello!")) (js "Hello") 0)
  = Settles 2 (Rejected (VerificationMismatch (js "Hello!") (js "Hello"))).
Proof. reflexivity. Qed.

(** The text [Hello] reads back as [Hello!]: nothing is reported. *)
Lemma enterText_mismatch_is_silent_witness :
  js "Hello!" <> js "Hello"
  /\ outcome (enterText (text_reads (js "Hello!")) (js "Hello") 0)
     = Settles 2 (Fulfilled tt).
Proof.
  assert (Hne : js "Hello!" <> js "Hello") by (intros H; discriminate H).
  split; [exact Hne|].
  rewrite (@enterText_mismatch_is_silent _ (text_reads (js "Hello!"))
             (js "Hello") (js "Hello!") 0 1 1 eq_refl eq_refl Hne).
  reflexivity.
Defined.

(** The panel readout comes first; without the panel the toast link is
    used; without both, a timeout. *)
Lemma publish_returns_first_source_witness :
  outcome (publish desktop cooperative default_options false 0)
  = Settles 4 (Fulfilled {| href := post_url |})
  /\ outcome (publish desktop panel_suppressed default_options false 0)
     = Settles 6 (Fulfilled {| href := post_url |})
  /\ exists T m,
       outcome (publish desktop nothing_published default_options false 0)
       = Settles T (Rejected (TimeoutError m)).
Proof.
  split; [|split].
  - pose proof (@publish_returns_first_source _ desktop cooperative
                  default_options 0 1 1 1 true eq_refl eq_refl eq_refl) as H.
    cbv zeta in H. destruct H as (_ & Hpanel & _).
    apply Hpanel; [reflexivity | vm_compute; lia].
  - pose proof (@publish_returns_first_source _ desktop panel_suppressed
                  default_options 0 1 1 1 true eq_refl eq_refl eq_refl) as H.
    cbv zeta in H. destruct H as (_ & _ & Htoast & _).
    apply Htoast; [reflexivity | exact I].
  - pose proof (@publish_returns_first_source _ desktop nothing_published
                  default_options 0 1 1 1 true eq_refl eq_refl eq_refl) as H.
    cbv zeta in H. destruct H as (_ & _ & _ & _ & _ & _ & Htimeout).
    apply (Htimeout 33 35 (js "Timeout exceeded") (js "Timeout exceeded"));
      reflexivity.
Defined.

(** From WP Admin the top frame is returned with no search; when the
    iframe does not load, strict mode fails and the default degrades. *)
Lemma getEditorFrame_resolution_witness :
  getEditorFrame wp_admin default_options 0
  = {| events := []; outcome := Settles 0 (Fulfilled (Some mainFrame)) |}
  /\ getEditorFrame no_iframe strict 0
     = {| events := [ (0, Invoke iframe_search) ];
          outcome := Settles 105 (Rejected SurfaceNotFound) |}
  /\ getEditorFrame no_iframe default_options 0
     = {| events := [ (0, Invoke iframe_search); (105, degraded_notice) ];
          outcome := Settles 105 (Fulfilled (Some mainFrame)) |}.
Proof.
  split; [|split].
  - apply (proj1 (@getEditorFrame_resolution _ wp_admin default_options 0));
      reflexivity.
  - apply (proj2 (@getEditorFrame_resolution _ no_iframe strict 0)
             105 timed_out (or_introl eq_refl) eq_refl).
  - apply (proj2 (@getEditorFrame_resolution _ no_iframe default_options 0)
             105 timed_out (or_intror eq_refl) eq_refl).
Defined.

(** The wrong preview for the viewport, on desktop and on mobile. *)
Lemma preview_wrong_viewport_fails_fast_witness :
  previewAsMobile desktop cooperative 0
  = {| events := [];
       outcome :=
         Settles 0 (Rejected (ModeMismatch (js "mobile") (js "desktop"))) |}
  /\ previewAsDesktop mobile cooperative (js "Tablet") 0
     = {| events := [];
          outcome :=
            Settles 0
              (Rejected (ModeMismatch (js "non-mobile") (js "mobile"))) |}.
Proof.
  split.
  - apply (proj1 (@preview_wrong_viewport_fails_fast _ desktop cooperative 0)).
    intros H; discriminate H.
  - apply (proj2 (@preview_wrong_viewport_fails_fast _ mobile cooperative 0)
             eq_refl).
Defined.

(** Adding a Quote block: on desktop the inserter is closed afterwards, on
    mobile it is not. *)
Lemma addBlock_sequence_witness :
  let quote := js "[aria-label=" ++ dquote ++ js "Block: Quote" ++ dquote
                 ++ js "]" in
  let steps :=
    [ (0, Invoke Gutenberg_resetSelectedBlock);
      (1, Invoke Toolbar_openBlockInserter);
      (2, Invoke (Gutenberg_searchBlockInserter (js "Quote")));
      (3, Invoke (Gutenberg_selectBlockInserterResult (js "Quote")));
      (4, Invoke (Gutenberg_getSelectedBlockElementHandle quote)) ] in
  addBlock desktop cooperative (js "Quote") quote 0
  = {| events := steps ++ [ (5, Invoke Toolbar_closeBlockInserter) ];
       outcome := Settles 6 (Fulfilled (element_handle 7)) |}
  /\ addBlock mobile cooperative (js "Quote") quote 0
     = {| events := steps;
          outcome := Settles 5 (Fulfilled (element_handle 7)) |}.
Proof.
  intros quote steps.
  pose proof (@addBlock_sequence _ desktop cooperative (js "Quote") quote
                (element_handle 7) 0 1 1 1 1 1
                eq_refl eq_refl eq_refl eq_refl eq_refl) as Hd.
  pose proof (@addBlock_sequence _ mobile cooperative (js "Quote") quote
                (element_handle 7) 0 1 1 1 1 1
                eq_refl eq_refl eq_refl eq_refl eq_refl) as Hm.
  cbv zeta in Hd, Hm.
  destruct Hd as (Hev & _ & Hout). destruct Hm as (Hev' & Hout' & _).
  assert (Hdesktop : VIEWPORT_NAME desktop <> js "mobile")
    by (intros H; discriminate H).
  specialize (Hout Hdesktop 1 eq_refl). specialize (Hout' eq_refl).
  split.
  - destruct (addBlock desktop cooperative (js "Quote") quote 0).
    cbn [events outcome] in Hev, Hout. rewrite Hev, Hout. reflexivity.
  - destruct (addBlock mobile cooperative (js "Quote") quote 0).
    cbn [events outcome] in Hev', Hout'. rewrite Hev', Hout'. reflexivity.
Defined.

(** Only the posts list is ever reached: [exitEditor] completes then. *)
Lemma exitEditor_first_destination_witness :
  outcome (exitEditor desktop lands_on_posts 0) = Settles 4 (Fulfilled tt)
  /\ outcome (exitEditor mobile lands_on_posts 0) = Settles 4 (Fulfilled tt).
Proof.
  assert (Hothers : forall other : jsstring,
    In other destinations -> other <> js "**/posts/**" ->
    settles_after 3
      (respond lands_on_posts (Page_waitForNavigation other) (0 + 1))).
  { intros other [<-|[<-|[<-|[]]]] Hne; try exact I. now elim Hne. }
  split.
  - rewrite (@exitEditor_first_destination _ desktop lands_on_posts
               (js "**/posts/**") 0 1 1 3 (Some (response 200))
               (or_intror (or_introl eq_refl)) eq_refl eq_refl eq_refl
               Hothers (le_S _ _ (le_S _ _ (le_n 1)))).
    reflexivity.
  - rewrite (@exitEditor_first_destination _ mobile lands_on_posts
               (js "**/posts/**") 0 1 1 3 (Some (response 200))
               (or_intror (or_introl eq_refl)) eq_refl eq_refl eq_refl
               Hothers (le_S _ _ (le_S _ _ (le_n 1)))).
    reflexivity.
Defined.

(** On a post, the click on the Post tab decides, and the section is
    expanded next. *)
Lemma settings_workflows_resolve_tab_first_witness :
  tab_resolved post_editor 0 1
  /\ firstn 3 (events (schedule post_editor 12 0))
     = tab_clicks 0
       ++ [ (1, Invoke (Settings_expandSection (js "Status & Visibility"))) ]
  /\ outcome (addTag post_editor (js "e2e") 0) = Settles 3 (Fulfilled tt).
Proof.
  assert (Hres : tab_resolved post_editor 0 1).
  { right. split; [reflexivity | unfold settles_after; simpl; lia]. }
  destruct (@settings_workflows_resolve_tab_first _ post_editor
              12 (js "Private") None (js "Uncategorized") (js "e2e")
              (js "hello-world"))
    as (Hschedule & _ & _ & Htag & _).
  split; [exact Hres|]. split.
  - rewrite (proj2 (Hschedule 0) 1 Hres). reflexivity.
  - rewrite (proj2 (Htag 0) 1 Hres). reflexivity.
Defined.

(** Two closes fail; the third is still started, and nothing is raised. *)
Lemma closeAllPanels_tolerates_failures_witness :
  closeAllPanels stuck_panels 0
  = {| events := [ (0, Invoke PublishPanel_closePanel);
                   (0, Invoke NavSidebar_closeSidebar);
                   (0, Invoke Toolbar_closeSettings) ];
       outcome := Settles 30 (Fulfilled tt) |}.
Proof.
  pose proof (@closeAllPanels_tolerates_failures _ stuck_panels 0) as H.
  cbv zeta in H. destruct H as (Hev & _ & Hout).
  specialize (Hout 30 1 2 (Rejected timed_out) (Fulfilled tt)
                (Rejected (OtherError 1)) eq_refl eq_refl eq_refl).
  destruct (closeAllPanels stuck_panels 0).
  cbn [events outcome] in Hev, Hout. rewrite Hev, Hout. reflexivity.
Defined.

(** The notice never shows: [unpublish] fails with the wait's timeout. *)
Lemma unpublish_waits_for_notice_witness :
  outcome (unpublish notice_missing default_options 0)
  = Settles 34 (Rejected timed_out)
  /\ outcome (unpublish cooperative default_options 0)
     = Settles 5 (Fulfilled tt).
Proof.
  pose proof (@unpublish_waits_for_notice _ notice_missing default_options
                (childFrame 0) 0 1 1 3 eq_refl eq_refl eq_refl) as Hn.
  pose proof (@unpublish_waits_for_notice _ cooperative default_options
                (childFrame 0) 0 1 1 3 eq_refl eq_refl eq_refl) as Hc.
  cbv zeta in Hn, Hc.
  destruct Hn as (_ & Hrej & _). destruct Hc as (_ & _ & Hok & _).
  split.
  - apply (Hrej 30 timed_out eq_refl).
  - apply (Hok 1 (Some (element_handle 1)) eq_refl).
Defined.

(** * Further properties *)

Section FrameResolution.

Context {types : ComponentTypes}.
Variable platform : Platform.
Variable world : World.
Variable this : EditorPage.

(** The search of [getEditorFrame] and its handler, apart from the
    shortcut taken on a WP Admin URL. *)
Lemma getEditorFrame_unfold (t : nat) :
  getEditorFrame world this t
  = if negb (requiresGutenframe this)
       && includes (js "/wp-admin") (page_url world t)
    then {| events := []; outcome := Settles t (Fulfilled (Some mainFrame)) |}
    else
      try_catch
        (elementHandle <- call world iframe_search ;;
         handle <- non_null elementHandle ;;
         call world (ElementHandle_contentFrame handle))
        (fun _ =>
           if requiresGutenframe this then throw SurfaceNotFound
           else await (console_info
                         (js "Could not locate editor iframe. Returning the top-level frame instead"))
                      (fun _ => resolve (Some mainFrame)))
        t.
Proof.
  unfold getEditorFrame. destruct (requiresGutenframe this).
  - reflexivity.
  - cbn [negb andb bind Monad_Async]. rewrite await_page_url.
    destruct (includes (js "/wp-admin") (page_url world t)); reflexivity.
Qed.

(** Splitting on every answer of the world that the goal depends on. *)
Ltac answers :=
  repeat match goal with
         | |- context [respond world ?a ?u] =>
             let E := fresh "E" in
             destruct (respond world a u) as [|? [?|?]] eqn:E;
             cbn [outcome events app non_null ret Monad_Async resolve
                    raise MonadExc_Async throw]
         | |- context [non_null ?x] =>
             is_var x; destruct x;
             cbn [outcome events app non_null ret Monad_Async resolve
                    raise MonadExc_Async throw]
         end.

(** X1. Outside strict mode [getEditorFrame] is never rejected: whatever
    goes wrong in the search, it falls back to the top-level frame. *)
Theorem getEditorFrame_lenient_never_rejects (t T : nat) (e : Err) :
  requiresGutenframe this = false ->
  outcome (getEditorFrame world this t) <> Settles T (Rejected e).
Proof.
  intros Hs. rewrite getEditorFrame_unfold, Hs. cbn [negb andb].
  destruct (includes (js "/wp-admin") (page_url world t)); [discriminate|].
  unfold try_catch, await, call, console_info, emit.
  cbn [bind Monad_Async outcome events]. unfold await. cbn [outcome events].
  answers; discriminate.
Qed.

(** X2. In strict mode [getEditorFrame] always starts the search, also on
    a WP Admin URL, and the only error it is ever rejected with is the
    not-found error, whatever failed underneath. *)
Theorem getEditorFrame_strict_only_not_found (t : nat) :
  requiresGutenframe this = true ->
  (exists rest,
     events (getEditorFrame world this t) = (t, Invoke iframe_search) :: rest)
  /\ (forall (T : nat) (e : Err),
        outcome (getEditorFrame world this t) = Settles T (Rejected e) ->
        e = SurfaceNotFound).
Proof.
  intros Hs. rewrite getEditorFrame_unfold, Hs. cbn [negb andb].
  unfold try_catch, await, call.
  cbn [bind Monad_Async outcome events]. unfold await. cbn [outcome events].
  split.
  - answers; eexists; reflexivity.
  - intros T e. answers; intros H; inversion H; reflexivity.
Qed.

(** X3. When the iframe element is found, [getEditorFrame] returns what
    [contentFrame()] resolves to as it is, [null] included: there is no
    fallback to the top-level frame then. *)
Theorem getEditorFrame_returns_content_frame
    (handle : ElementHandle) (frame : option Frame) (t d1 d2 : nat) :
  requiresGutenframe this = true
    \/ includes (js "/wp-admin") (page_url world t) = false ->
  respond world iframe_search t = Settles d1 (Fulfilled (Some handle)) ->
  respond world (ElementHandle_contentFrame handle) (t + d1)
  = Settles d2 (Fulfilled frame) ->
  getEditorFrame world this t
  = {| events := [ (t, Invoke iframe_search);
                   (t + d1, Invoke (ElementHandle_contentFrame handle)) ];
       outcome := Settles (t + d1 + d2) (Fulfilled frame) |}.
Proof.
  intros Hsearch H1 H2. rewrite getEditorFrame_unfold.
  replace (negb (requiresGutenframe this)
           && includes (js "/wp-admin") (page_url world t)) with false
    by (destruct Hsearch as [->| ->];
        [reflexivity | now rewrite andb_false_r]).
  unfold try_catch. cbn [bind Monad_Async].
  rewrite (await_call_fulfilled world _ _ _ H1).
  cbn [outcome events non_null ret Monad_Async]. rewrite await_resolve.
  unfold await, call. cbn [outcome events]. rewrite H2. reflexivity.
Qed.

(** X4. Outside strict mode a failure after the lookup degrades like a
    failed lookup: a lookup that resolves to [null], and a rejected
    [contentFrame()], each end in the notice and the top-level frame. *)
Theorem getEditorFrame_late_failures_degrade (t : nat) :
  requiresGutenframe this = false ->
  includes (js "/wp-admin") (page_url world t) = false ->
  (forall d1 : nat,
     respond world iframe_search t = Settles d1 (Fulfilled None) ->
     getEditorFrame world this t
     = {| events := [ (t, Invoke iframe_search); (t + d1, degraded_notice) ];
          outcome := Settles (t + d1) (Fulfilled (Some mainFrame)) |})
  /\
  (forall (handle : ElementHandle) (d1 d2 : nat) (e : Err),
     respond world iframe_search t = Settles d1 (Fulfilled (Some handle)) ->
     respond world (ElementHandle_contentFrame handle) (t + d1)
     = Settles d2 (Rejected e) ->
     getEditorFrame world this t
     = {| events := [ (t, Invoke iframe_search);
                      (t + d1, Invoke (ElementHandle_contentFrame handle));
                      (t + d1 + d2, degraded_notice) ];
          outcome := Settles (t + d1 + d2) (Fulfilled (Some mainFrame)) |}).
Proof.
  intros Hs Hu. rewrite getEditorFrame_unfold, Hs, Hu. cbn [negb andb].
  unfold try_catch. cbn [bind Monad_Async]. split.
  - intros d1 H1. rewrite (await_call_fulfilled world _ _ _ H1).
    reflexivity.
  - intros handle d1 d2 e H1 H2.
    rewrite (await_call_fulfilled world _ _ _ H1).
    cbn [outcome events non_null ret Monad_Async]. rewrite await_resolve.
    unfold await at 1 2, call. cbn [outcome events]. rewrite H2.
    reflexivity.
Qed.

(** X5. The toast source fails rather than return something else than a
    URL: on a [null] frame it is rejected before the link is read, and a
    link whose [href] the URL parser refuses is rejected as well. *)
Theorem toast_source_fails_without_url (t tf : nat) :
  (outcome (getEditorFrame world this t) = Settles tf (Fulfilled None) ->
   getPublishedURLFromToast platform world this t
   = {| events := events (getEditorFrame world this t);
        outcome :=
          Settles tf
            (Rejected (TypeError (js "Cannot read properties of null"))) |})
  /\
  (forall (frame : Frame) (d : nat) (link : option jsstring),
     outcome (getEditorFrame world this t)
     = Settles tf (Fulfilled (Some frame)) ->
     respond world
       (Frame_locator_getAttribute frame selectors.toastViewPostLink
          (js "href")) tf
     = Settles d (Fulfilled link) ->
     URL_parse platform (ToString link) = None ->
     outcome (getPublishedURLFromToast platform world this t)
     = Settles (tf + d) (Rejected (TypeError (js "Invalid URL")))).
Proof.
  unfold getPublishedURLFromToast. cbn [bind Monad_Async]. split.
  - intros Hf. rewrite (await_fulfilled _ _ _ Hf).
    cbn [non_null raise MonadExc_Async]. unfold await, throw.
    cbn [outcome events]. now rewrite app_nil_r.
  - intros frame d link Hf Ha Hp. rewrite (await_fulfilled _ _ _ Hf).
    cbn [outcome non_null ret Monad_Async]. rewrite await_resolve.
    rewrite (await_call_fulfilled world _ _ _ Ha). cbn [outcome].
    unfold new_URL. rewrite Hp. reflexivity.
Qed.

End FrameResolution.

Section Publishing.

Context {types : ComponentTypes}.
Variable platform : Platform.
Variable world : World.
Variable this : EditorPage.

Ltac answers :=
  repeat match goal with
         | |- context [respond world ?a ?u] =>
             let E := fresh "E" in
             destruct (respond world a u) as [|? [?|?]] eqn:E;
             cbn [outcome events app non_null ret Monad_Async resolve
                    raise MonadExc_Async throw]
         | |- context [non_null ?x] =>
             is_var x; destruct x;
             cbn [outcome events app non_null ret Monad_Async resolve
                    raise MonadExc_Async throw]
         end.

Lemma followed_by_visit_await {A} (visit : bool) (m : Async A)
    (k1 k2 : A -> Async URL) (t : nat) :
  (forall (x : A) (t' : nat),
     followed_by_visit world visit (k1 x t') (k2 x t')) ->
  followed_by_visit world visit (await m k1 t) (await m k2 t).
Proof.
  intros Hk. destruct (outcome (m t)) as [|t' [x|e]] eqn:E.
  - rewrite !(await_pending _ _ _ E). reflexivity.
  - rewrite !(await_fulfilled _ _ _ E). specialize (Hk x t').
    unfold followed_by_visit in *. cbn [outcome events]. rewrite Hk.
    destruct (k2 x t') as [ev2 [|tv [u|e]]]; cbn [outcome events];
      try reflexivity.
    now rewrite app_assoc.
  - rewrite !(await_rejected _ _ _ E). reflexivity.
Qed.

(** [publish( { visit } )] is [publish()] followed, once the URL is there,
    by the visit. *)
Lemma publish_then_visit (visit : bool) (t : nat) :
  followed_by_visit world visit
    (publish platform world this visit t)
    (publish platform world this false t).
Proof.
  unfold publish. cbn [bind Monad_Async ret].
  apply followed_by_visit_await. intros _ t1.
  apply followed_by_visit_await. intros panelIsOpen t2.
  apply followed_by_visit_await. intros _ t3.
  set (race := Promise_race _).
  destruct (outcome (race t3)) as [|tv [u|e]] eqn:E.
  - rewrite !(await_pending _ _ _ E). reflexivity.
  - rewrite !(await_fulfilled _ _ _ E). unfold followed_by_visit.
    cbv iota. rewrite (await_resolve tt). cbn [resolve outcome events].
    rewrite app_nil_r. fold (visiting world visit u). f_equal.
    unfold await.
    destruct (outcome (visiting world visit u tv)) as [|T [[]|ev]];
      cbn [events resolve]; rewrite ?app_nil_r; reflexivity.
  - rewrite !(await_rejected _ _ _ E). reflexivity.
Qed.

(** Events of a given kind never occur in a composite if they occur in
    none of its parts. *)
Lemma Forall_events_await {A B} (P : nat * Event -> Prop)
    (m : Async A) (k : A -> Async B) (t : nat) :
  Forall P (events (m t)) ->
  (forall (x : A) (t' : nat), Forall P (events (k x t'))) ->
  Forall P (events (await m k t)).
Proof.
  intros Hm Hk. unfold await.
  destruct (outcome (m t)) as [|t' [x|e]]; cbn [events]; auto.
  apply Forall_app. auto.
Qed.

Lemma Forall_events_try_catch {A} (P : nat * Event -> Prop)
    (m : Async A) (h : Err -> Async A) (t : nat) :
  Forall P (events (m t)) ->
  (forall (e : Err) (t' : nat), Forall P (events (h e t'))) ->
  Forall P (events (try_catch m h t)).
Proof.
  intros Hm Hh. unfold try_catch.
  destruct (outcome (m t)) as [|t' [x|e]]; cbn [events]; auto.
  apply Forall_app. auto.
Qed.

Lemma Forall_events_call (P : nat * Event -> Prop) (a : Action) (t : nat) :
  P (t, Invoke a) -> Forall P (events (call world a t)).
Proof. intros H. cbn [call events]. auto. Qed.

(** Neither source of the URL, nor the visit, touches the checklist panel's
    publish button. *)
Lemma second_stage_not_later (visit : bool) (t t' : nat) :
  ~ In (t', Invoke PublishPanel_publish)
       (events
          (await (Promise_race [ call world PublishPanel_getPublishedURL;
                                 getPublishedURLFromToast platform world this ])
                 (fun u => await (visiting world visit u)
                                 (fun _ => resolve u)) t)).
Proof.
  set (P := fun te : nat * Event => snd te <> Invoke PublishPanel_publish).
  assert (H : Forall P
    (events
       (await (Promise_race [ call world PublishPanel_getPublishedURL;
                              getPublishedURLFromToast platform world this ])
              (fun u => await (visiting world visit u)
                              (fun _ => resolve u)) t))).
  { apply Forall_events_await.
    - unfold Promise_race, started, events_of.
      cbn [map List.concat events]. rewrite app_nil_r.
      apply Forall_app. split.
      + apply Forall_events_call. discriminate.
      + unfold getPublishedURLFromToast. cbn [bind Monad_Async].
        apply Forall_events_await.
        * rewrite getEditorFrame_unfold.
          destruct (negb (requiresGutenframe this) && _);
            [constructor|].
          apply Forall_events_try_catch.
          -- cbn [bind Monad_Async].
             apply Forall_events_await;
               [apply Forall_events_call; discriminate|].
             intros [h|] t1; cbn [non_null ret Monad_Async raise
                                    MonadExc_Async].
             ++ rewrite await_resolve. apply Forall_events_call.
                discriminate.
             ++ unfold await, throw. cbn [outcome events]. constructor.
          -- intros e t1. destruct (requiresGutenframe this);
               [constructor|].
             unfold await, console_info, emit. cbn [outcome events app].
             repeat constructor. discriminate.
        * intros [f|] t1; cbn [non_null ret Monad_Async raise
                                 MonadExc_Async].
          -- rewrite await_resolve. apply Forall_events_await;
               [apply Forall_events_call; discriminate|].
             intros x t2. unfold new_URL.
             destruct (URL_parse platform (ToString x)); constructor.
          -- unfold await, throw. cbn [outcome events]. constructor.
    - intros u tv. apply Forall_events_await; [|constructor].
      unfold visiting. destruct visit; [|constructor].
      unfold visitPublishedPost. cbn [bind Monad_Async].
      apply Forall_events_await; [repeat constructor; discriminate|].
      intros _ t1. apply Forall_events_await;
        [apply Forall_events_call; discriminate|].
      intros _ t2. apply Forall_events_call. discriminate. }
  intros Hin. rewrite Forall_forall in H. apply (H _ Hin). reflexivity.
Qed.

(** X6. Once the publish button was clicked and the panel's state read,
    [publish] presses the checklist panel's publish button exactly when
    the panel is open, and then only once, right after that reading. *)
Theorem publish_second_stage_iff_panel_open
    (visit panelIsOpen : bool) (t d1 d2 t' : nat) :
  respond world Toolbar_clickPublish t = Settles d1 (Fulfilled tt) ->
  respond world PublishPanel_panelIsOpen (t + d1)
  = Settles d2 (Fulfilled panelIsOpen) ->
  In (t', Invoke PublishPanel_publish)
     (events (publish platform world this visit t))
  <-> panelIsOpen = true /\ t' = t + d1 + d2.
Proof.
  intros H1 H2. unfold publish. cbn [bind Monad_Async ret].
  rewrite (await_call_fulfilled world _ _ _ H1). cbn [events].
  rewrite (await_call_fulfilled world _ _ _ H2). cbn [events].
  pose proof (second_stage_not_later visit) as Hrest.
  unfold visiting in Hrest.
  split.
  - intros [H|[H|H]]; [discriminate H | discriminate H |].
    destruct panelIsOpen.
    + unfold await at 1, call at 1 in H. cbn [outcome events] in H.
      destruct (respond world PublishPanel_publish (t + d1 + d2))
        as [|d3 [[]|e]]; cbn [events app] in H.
      * destruct H as [H|[]]. inversion H. auto.
      * destruct H as [H|H]; [inversion H; auto|].
        now apply Hrest in H.
      * destruct H as [H|[]]. inversion H. auto.
    + rewrite await_resolve in H. now apply Hrest in H.
  - intros [-> ->]. right. right.
    unfold await at 1, call at 1. cbn [outcome events].
    destruct (respond world PublishPanel_publish (t + d1 + d2))
      as [|d3 [[]|e]]; cbn [events app]; left; reflexivity.
Qed.

(** X7. [publish( { visit: true } )] returns a URL only after it has
    registered the dialog handler, navigated to that very URL and seen the
    post confirmed; the URL is the one [publish()] returns. *)
Theorem publish_visits_the_url_it_returns (t T : nat) (u : URL) :
  outcome (publish platform world this true t) = Settles T (Fulfilled u) ->
  exists (tv d1 d2 : nat) (r : option Response),
    outcome (publish platform world this false t) = Settles tv (Fulfilled u)
    /\ respond world (goto_published (href u)) tv = Settles d1 (Fulfilled r)
    /\ respond world confirm_post_shown (tv + d1)
       = Settles d2 (Fulfilled tt)
    /\ T = tv + d1 + d2
    /\ events (publish platform world this true t)
       = events (publish platform world this false t)
         ++ [ (tv, Page_once_dialog_accept);
              (tv, Invoke (goto_published (href u)));
              (tv + d1, Invoke confirm_post_shown) ].
Proof.
  pose proof (publish_then_visit true t) as Hv.
  unfold followed_by_visit in Hv. rewrite Hv. clear Hv.
  destruct (outcome (publish platform world this false t))
    as [|tv [u'|e]] eqn:E; [now rewrite E | | now rewrite E].
  cbn [outcome events]. unfold visiting, visitPublishedPost.
  cbn [bind Monad_Async]. unfold await, emit, call.
  cbn [outcome events app]. fold (goto_published (href u')).
  fold confirm_post_shown.
  destruct (respond world (goto_published (href u')) tv)
    as [|d1 [r|e1]] eqn:E1; cbn [outcome events app]; try discriminate.
  destruct (respond world confirm_post_shown (tv + d1))
    as [|d2 [[]|e2]] eqn:E2; cbn [outcome events app resolve];
    try discriminate.
  intros H. inversion H. subst. exists tv, d1, d2, r.
  repeat split; auto.
Qed.

(** X8. A post that is published may still make [publish( { visit: true } )]
    fail: when the navigation to the URL, or the check that the post is
    shown, is rejected, so is [publish], and the URL is not returned. *)
Theorem publish_visit_failure_hides_url (t tv : nat) (u : URL) :
  outcome (publish platform world this false t) = Settles tv (Fulfilled u) ->
  (forall (d : nat) (e : Err),
     respond world (goto_published (href u)) tv = Settles d (Rejected e) ->
     outcome (publish platform world this true t)
     = Settles (tv + d) (Rejected e))
  /\
  (forall (d1 d2 : nat) (r : option Response) (e : Err),
     respond world (goto_published (href u)) tv = Settles d1 (Fulfilled r) ->
     respond world confirm_post_shown (tv + d1) = Settles d2 (Rejected e) ->
     outcome (publish platform world this true t)
     = Settles (tv + d1 + d2) (Rejected e)).
Proof.
  intros E. pose proof (publish_then_visit true t) as Hv.
  unfold followed_by_visit in Hv. rewrite E in Hv. rewrite Hv. clear Hv.
  cbn [outcome]. unfold visiting, visitPublishedPost.
  cbn [bind Monad_Async]. unfold await, emit, call. cbn [outcome events].
  fold (goto_published (href u)). fold confirm_post_shown.
  split.
  - intros d e ->. reflexivity.
  - intros d1 d2 r e -> . cbn [outcome]. intros ->. reflexivity.
Qed.

End Publishing.

Section Leaving.

Context {types : ComponentTypes}.
Variable platform : Platform.
Variable world : World.

Lemma earlier_not_rejected {A} (p q : Promise A) :
  (forall T e, p <> Settles T (Rejected e)) ->
  (forall T e, q <> Settles T (Rejected e)) ->
  forall T e, earlier p q <> Settles T (Rejected e).
Proof.
  intros Hp Hq T e. destruct p as [|tp rp], q as [|tq rq]; cbn [earlier];
    auto. destruct (tq <? tp); auto.
Qed.

(** X9. [exitEditor] needs the exit action itself to succeed: when that
    call is rejected and no navigation wait is, [exitEditor] is rejected
    with the same error at that moment, even if a destination was reached
    before. *)
Theorem exitEditor_fails_with_exit_action
    (t d0 Ta : nat) (e : Err) :
  respond world NavSidebar_openSidebar t = Settles d0 (Fulfilled tt) ->
  exit_action_promise platform world (t + d0) = Settles Ta (Rejected e) ->
  (forall (url : jsstring) (d : nat) (e' : Err),
     In url destinations ->
     respond world (Page_waitForNavigation url) (t + d0)
     <> Settles d (Rejected e')) ->
  outcome (exitEditor platform world t) = Settles Ta (Rejected e).
Proof.
  intros H0 Ha Hn. unfold exitEditor. cbn [bind Monad_Async].
  rewrite (await_call_fulfilled world _ _ _ H0). cbn [outcome].
  set (race := Promise_race _).
  assert (Hr : forall T e', outcome (race (t + d0)) <> Settles T (Rejected e')).
  { unfold race, Promise_race, started, race_outcome.
    cbn [map outcome fold_right].
    assert (Hw : forall url, In url destinations -> forall T e',
      outcome (call world (Page_waitForNavigation url) (t + d0))
      <> Settles T (Rejected e')).
    { intros url Hin T e'. rewrite outcome_call.
      destruct (respond world (Page_waitForNavigation url) (t + d0))
        as [|d [r|e'']] eqn:E; try discriminate.
      now elim (Hn url d e''). }
    apply earlier_not_rejected;
      [apply (Hw (js "**/home/**")); left; reflexivity|].
    apply earlier_not_rejected;
      [apply (Hw (js "**/posts/**")); right; left; reflexivity|].
    apply earlier_not_rejected;
      [apply (Hw (js "**/pages/**")); right; right; left; reflexivity|].
    discriminate. }
  assert (Hall : forall (A : Type) (exit : Async A),
    outcome (exit (t + d0)) = Settles Ta (Rejected e) ->
    outcome (await (Promise_all ([unknown race] ++ [unknown exit]))
                   (fun _ => ret tt) (t + d0))
    = Settles Ta (Rejected e)).
  { intros A exit He.
    assert (Ho :
      outcome (Promise_all ([unknown race] ++ [unknown exit]) (t + d0))
      = Settles Ta (Rejected e)).
    { unfold Promise_all, started. cbn [app map outcome].
      rewrite !unknown_run. cbn [outcome]. rewrite He.
      unfold all_outcome, first_rejection.
      cbn [map rejection_of race_outcome fold_right].
      destruct (outcome (race (t + d0))) as [|T [v|e']] eqn:E;
        cbn [rejection_of earlier]; try reflexivity.
      now elim (Hr T e'). }
    rewrite (await_rejected _ _ _ Ho). reflexivity. }
  unfold exit_action_promise in Ha.
  destruct (is_mobile platform); cbv beta iota zeta;
    pose proof (Hall _ _ Ha) as Hrun;
    match goal with
    | |- outcome ?X = _ => exact (Hrun : outcome X = _)
    end.
Qed.

(** The race of the two tab clicks, when the first to settle is rejected. *)
Lemma tab_race_fails (steps : Async unit) (t d : nat) (e : Err) :
  tab_rejected world t d e ->
  await (Promise_race [ call world (Settings_clickTab (js "Page"));
                        call world (Settings_clickTab (js "Post")) ])
        (fun _ => steps) t
  = {| events := tab_clicks t; outcome := Settles (t + d) (Rejected e) |}.
Proof.
  intros Hrej.
  assert (Hrace :
    outcome (Promise_race [ call world (Settings_clickTab (js "Page"));
                            call world (Settings_clickTab (js "Post")) ] t)
    = Settles (t + d) (Rejected e)).
  { unfold Promise_race, started, race_outcome.
    cbn [map outcome fold_right]. rewrite earlier_pending.
    destruct Hrej as [[Hw Hl]|[Hw Hl]].
    - rewrite (outcome_call world (Settings_clickTab (js "Page"))), Hw.
      rewrite earlier_left; [reflexivity|].
      rewrite (outcome_call world (Settings_clickTab (js "Post"))).
      destruct (respond world (Settings_clickTab (js "Post")) t);
        simpl in *; [auto|lia].
    - apply (settles_after_call world) in Hl.
      rewrite (outcome_call world (Settings_clickTab (js "Post"))), Hw.
      apply earlier_right, Hl. }
  rewrite (await_rejected _ _ _ Hrace). reflexivity.
Qed.

(** X10. The tab race is decided by the first click to settle, not by the
    first to succeed: when that one is rejected, each of the five settings
    workflows is rejected with its error, having expanded no section, even
    if the other click would have succeeded later. *)
Theorem settings_workflows_fail_with_first_rejection
    (date : Schedule) (visibility : PrivacyOptions)
    (password : option jsstring) (name tag slug : jsstring)
    (t d : nat) (e : Err) :
  tab_rejected world t d e ->
  let failed : Run Event unit :=
    {| events := tab_clicks t; outcome := Settles (t + d) (Rejected e) |} in
  schedule world date t = failed
  /\ setArticleVisibility world visibility password t = failed
  /\ selectCategory world name t = failed
  /\ addTag world tag t = failed
  /\ setURLSlug world slug t = failed.
Proof.
  intros Hrej failed. subst failed.
  repeat split; apply tab_race_fails, Hrej.
Qed.

(** X11. [closePreview] is the desktop preview of ['Desktop'] under every
    viewport but [mobile]; under [mobile], where that preview is refused,
    it completes at once and does nothing. *)
Theorem closePreview_restores_desktop (Desktop : PreviewOptions) (t : nat) :
  (VIEWPORT_NAME platform <> js "mobile" ->
   closePreview platform world Desktop t
   = previewAsDesktop platform world Desktop t)
  /\
  (VIEWPORT_NAME platform = js "mobile" ->
   closePreview platform world Desktop t
   = {| events := []; outcome := Settles t (Fulfilled tt) |}
   /\ exists e : Err,
        outcome (previewAsDesktop platform world Desktop t)
        = Settles t (Rejected e)).
Proof.
  unfold closePreview, previewAsDesktop. split.
  - intros Hne. destruct (is_mobile platform) eqn:E; [|reflexivity].
    apply is_mobile_true in E. contradiction.
  - intros Hm. apply is_mobile_true in Hm. rewrite Hm.
    split; [reflexivity|]. eexists. reflexivity.
Qed.

End Leaving.

Section FlowProperties.

Context {types : ComponentTypes}.
Variable platform : Platform.
Variable full : FullWorld.
Variable this : EditorPage.
Variable getCalypsoURL : jsstring -> jsstring.

Lemma flow_await_fulfilled {A B} (m : Flow A) (k : A -> Flow B)
    (t t' : nat) (v : A) :
  outcome (m t) = Settles t' (Fulfilled v) ->
  flow_await m k t
  = {| events := events (m t) ++ events (k v t');
       outcome := outcome (k v t') |}.
Proof. intros H. unfold flow_await. rewrite H. reflexivity. Qed.

Lemma flow_await_rejected {A B} (m : Flow A) (k : A -> Flow B)
    (t t' : nat) (e : Err) :
  outcome (m t) = Settles t' (Rejected e) ->
  flow_await m k t
  = {| events := events (m t); outcome := Settles t' (Rejected e) |}.
Proof. intros H. unfold flow_await. rewrite H. reflexivity. Qed.

Lemma flow_await_resolve {A B} (v : A) (k : A -> Flow B) (t : nat) :
  flow_await (flow_resolve v) k t = k v t.
Proof.
  unfold flow_await, flow_resolve. cbn [outcome events app].
  destruct (k v t). reflexivity.
Qed.

Lemma flow_await_lift_resolve {A B} (v : A) (k : A -> Flow B) (t : nat) :
  flow_await (lift (resolve v)) k t = k v t.
Proof.
  unfold flow_await, lift, resolve. cbn [outcome events map app].
  destruct (k v t). reflexivity.
Qed.

Lemma flow_await_further_fulfilled {B} (a : FurtherAction)
    (k : further_ret_type a -> Flow B) (t d : nat) (v : further_ret_type a) :
  respond_further full a t = Settles d (Fulfilled v) ->
  flow_await (call_further full a) k t
  = {| events := (t, InvokeFurther a) :: events (k v (t + d));
       outcome := outcome (k v (t + d)) |}.
Proof.
  intros H. unfold flow_await, call_further. cbn [outcome events].
  rewrite H. reflexivity.
Qed.

Lemma flow_await_listed_fulfilled {B} (a : Action)
    (k : ret_type a -> Flow B) (t d : nat) (v : ret_type a) :
  respond (core full) a t = Settles d (Fulfilled v) ->
  flow_await (lift (call (core full) a)) k t
  = {| events := (t, Listed (Invoke a)) :: events (k v (t + d));
       outcome := outcome (k v (t + d)) |}.
Proof.
  intros H. unfold flow_await, lift, call. cbn [outcome events map fst snd].
  rewrite H. reflexivity.
Qed.

(** Splitting on every answer of the world that the goal depends on. *)
Ltac answers :=
  repeat match goal with
         | |- context [respond (core full) ?a ?u] =>
             destruct (respond (core full) a u) as [|? [?|?]];
             cbn [outcome events app map fst snd]
         | |- context [respond_further full ?a ?u] =>
             let E := fresh "E" in
             destruct (respond_further full a u) as [|? [?|?]] eqn:E;
             cbn [outcome events app map fst snd]
         end.

(** X12. [addPattern] completes only once the toast that names the
    pattern as inserted was found; and whatever the collaborators do, it
    never asks for the inserter to be closed, as [addBlock] does. *)
Theorem addPattern_waits_for_its_toast (patternName : jsstring) (t : nat) :
  (forall T : nat,
     outcome (addPattern full patternName t) = Settles T (Fulfilled tt) ->
     exists (t' d : nat),
       respond_further full
         (FrameLocator_waitFor (pattern_inserted_toast patternName)) t'
       = Settles d (Fulfilled tt)
       /\ T = t' + d)
  /\ (forall t' : nat,
        ~ In (t', Listed (Invoke Toolbar_closeBlockInserter))
             (events (addPattern full patternName t))).
Proof.
  unfold addPattern. cbn [bind Monad_Flow].
  unfold flow_await, lift, call, call_further.
  cbn [outcome events map fst snd]. fold (pattern_inserted_toast patternName).
  split.
  - intros T.
    destruct (respond (core full) Gutenberg_resetSelectedBlock t)
      as [|d1 [[]|?]]; cbn [outcome]; try discriminate.
    destruct (respond (core full) Toolbar_openBlockInserter (t + d1))
      as [|d2 [[]|?]]; cbn [outcome]; try discriminate.
    destruct (respond (core full) (Gutenberg_searchBlockInserter patternName)
                (t + d1 + d2)) as [|d3 [[]|?]]; cbn [outcome];
      try discriminate.
    destruct (respond_further full
                (Gutenberg_selectBlockInserterResult_of_type patternName
                   (js "pattern")) (t + d1 + d2 + d3))
      as [|d4 [[]|?]]; cbn [outcome]; try discriminate.
    destruct (respond_further full
                (FrameLocator_waitFor (pattern_inserted_toast patternName))
                (t + d1 + d2 + d3 + d4))
      as [|d5 [[]|?]] eqn:E; cbn [outcome]; try discriminate.
    intros H. inversion H. eauto.
  - intros t'. answers; cbn [In]; intros H;
      repeat (destruct H as [H|H]; [discriminate H|]); exact H.
Qed.

(** X13. [removeBlock] presses a key only after the click on the block
    succeeded, and the key is Backspace: a failed click deletes nothing. *)
Theorem removeBlock_deletes_only_after_click
    (blockHandle : ElementHandle) (key : jsstring) (t t' : nat) :
  In (t', InvokeFurther (Keyboard_press key))
     (events (removeBlock full blockHandle t)) ->
  key = js "Backspace"
  /\ exists d : nat,
       respond_further full (ElementHandle_click blockHandle) t
       = Settles d (Fulfilled tt)
       /\ t' = t + d.
Proof.
  unfold removeBlock. cbn [bind Monad_Flow].
  unfold flow_await, call_further. cbn [outcome events].
  destruct (respond_further full (ElementHandle_click blockHandle) t)
    as [|d [[]|e]] eqn:E; cbn [outcome events app In].
  - intros [H|[]]. discriminate H.
  - intros [H|[H|[]]]; [discriminate H|]. inversion H. subst. eauto.
  - intros [H|[]]. discriminate H.
Qed.

(** X14. [viewRevisions] starts by the same two tab clicks as the settings
    workflows: when a click succeeds first the revisions are shown from
    that moment, and when the first click to settle is rejected it fails
    without showing them. *)
Theorem viewRevisions_resolves_tab_first (t d : nat) :
  (tab_resolved (core full) t d ->
   viewRevisions full t
   = {| events := listed (tab_clicks t)
                    ++ [ (t + d, InvokeFurther Settings_showRevisions) ];
        outcome := outcome (call_further full Settings_showRevisions (t + d)) |})
  /\
  (forall e : Err,
     tab_rejected (core full) t d e ->
     viewRevisions full t
     = {| events := listed (tab_clicks t);
          outcome := Settles (t + d) (Rejected e) |}).
Proof.
  unfold viewRevisions. cbn [bind Monad_Flow].
  set (race := Promise_race _). split.
  - intros Hres.
    pose proof (tab_race_resolved (resolve tt) Hres) as Hr.
    fold race in Hr. apply (f_equal (@outcome _ _)) in Hr as Ho.
    cbn [outcome resolve] in Ho.
    assert (Hrace : outcome (race t) = Settles (t + d) (Fulfilled tt)).
    { unfold await in Ho. destruct (outcome (race t)) as [|T [[]|e]];
        cbn [outcome resolve] in Ho; exact Ho. }
    assert (Hl : outcome (lift race t) = Settles (t + d) (Fulfilled tt))
      by exact Hrace.
    rewrite (flow_await_fulfilled _ _ _ Hl). reflexivity.
  - intros e Hrej.
    pose proof (tab_race_fails (resolve tt) Hrej) as Hr.
    fold race in Hr. apply (f_equal (@outcome _ _)) in Hr as Ho.
    cbn [outcome] in Ho.
    assert (Hrace : outcome (race t) = Settles (t + d) (Rejected e)).
    { unfold await in Ho. destruct (outcome (race t)) as [|T [[]|e']];
        cbn [outcome resolve] in Ho; exact Ho. }
    assert (Hl : outcome (lift race t) = Settles (t + d) (Rejected e))
      by exact Hrace.
    rewrite (flow_await_rejected _ _ _ Hl). reflexivity.
Qed.

(** X15. [forceDismissWelcomeTour] dispatches the dismissal only after the
    welcome guide's status was reported as loaded on the same frame,
    whatever the collaborators do. *)
Theorem welcome_tour_dismissed_after_status_loaded
    (frame : Frame) (t t' : nat) :
  In (t', InvokeFurther (Frame_waitForFunction frame setShowWelcomeGuide_false))
     (events (forceDismissWelcomeTour full this t)) ->
  exists (t0 d : nat),
    respond_further full
      (Frame_waitForFunction frame isWelcomeGuideStatusLoaded) t0
    = Settles d (Fulfilled tt)
    /\ t' = t0 + d.
Proof.
  unfold forceDismissWelcomeTour. cbn [bind Monad_Flow].
  unfold flow_await at 1.
  assert (Hlisted : forall evs : list (nat * Event),
    ~ In (t', InvokeFurther
                (Frame_waitForFunction frame setShowWelcomeGuide_false))
         (map (fun te => (fst te, Listed (snd te))) evs)).
  { intros evs Hin. apply in_map_iff in Hin.
    destruct Hin as (te & Heq & _). discriminate Heq. }
  destruct (outcome (lift (getEditorFrame (core full) this) t))
    as [|t1 [[f|]|e]]; cbn [events lift outcome].
  - intros H. now apply Hlisted in H.
  - rewrite in_app_iff. intros [H|H]; [now apply Hlisted in H|].
    revert H. cbn [non_null ret Monad_Async]. unfold flow_await at 1.
    cbn [lift resolve outcome events map app].
    unfold flow_await, call_further. cbn [outcome events].
    destruct (respond_further full
                (Frame_waitForFunction f isWelcomeGuideStatusLoaded) t1)
      as [|d [[]|e]] eqn:E; cbn [events app In].
    + intros [H|[]]. discriminate H.
    + intros [H|[H|[]]]; [discriminate H|]. inversion H. subst. eauto.
    + intros [H|[]]. discriminate H.
  - rewrite in_app_iff. intros [H|H]; [now apply Hlisted in H|].
    revert H. cbn [non_null raise MonadExc_Async]. unfold flow_await.
    cbn [lift throw outcome events map]. intros [].
  - intros H. now apply Hlisted in H.
Qed.

(** X16. [waitUntilLoaded] resolves the editor frame twice, before the
    title is awaited and again to dismiss the welcome tour, and returns
    the first of the two: the frame it hands out need not be the one the
    tour was dismissed on. *)
Theorem waitUntilLoaded_returns_first_frame
    (first : option Frame) (second : Frame) (t t1 d2 t3 d4 d5 : nat) :
  outcome (getEditorFrame (core full) this t) = Settles t1 (Fulfilled first) ->
  respond_further full (FrameLocator_waitFor selectors.editorTitle) t1
  = Settles d2 (Fulfilled tt) ->
  outcome (getEditorFrame (core full) this (t1 + d2))
  = Settles t3 (Fulfilled (Some second)) ->
  respond_further full
    (Frame_waitForFunction second isWelcomeGuideStatusLoaded) t3
  = Settles d4 (Fulfilled tt) ->
  respond_further full
    (Frame_waitForFunction second setShowWelcomeGuide_false) (t3 + d4)
  = Settles d5 (Fulfilled tt) ->
  waitUntilLoaded full this t
  = {| events :=
         listed (events (getEditorFrame (core full) this t))
         ++ [ (t1, InvokeFurther (FrameLocator_waitFor selectors.editorTitle)) ]
         ++ listed (events (getEditorFrame (core full) this (t1 + d2)))
         ++ [ (t3, InvokeFurther
                     (Frame_waitForFunction second isWelcomeGuideStatusLoaded));
              (t3 + d4,
               InvokeFurther
                 (Frame_waitForFunction second setShowWelcomeGuide_false)) ];
       outcome := Settles (t3 + d4 + d5) (Fulfilled first) |}.
Proof.
  intros H1 H2 H3 H4 H5.
  assert (Hdismiss :
    forceDismissWelcomeTour full this (t1 + d2)
    = {| events :=
           listed (events (getEditorFrame (core full) this (t1 + d2)))
           ++ [ (t3, InvokeFurther
                       (Frame_waitForFunction second
                          isWelcomeGuideStatusLoaded));
                (t3 + d4,
                 InvokeFurther
                   (Frame_waitForFunction second setShowWelcomeGuide_false)) ];
         outcome := Settles (t3 + d4 + d5) (Fulfilled tt) |}).
  { unfold forceDismissWelcomeTour. cbn [bind Monad_Flow].
    assert (Hl : outcome (lift (getEditorFrame (core full) this) (t1 + d2))
                 = Settles t3 (Fulfilled (Some second))) by exact H3.
    rewrite (flow_await_fulfilled _ _ _ Hl). cbn [events lift outcome].
    cbn [non_null ret Monad_Async]. rewrite flow_await_lift_resolve.
    rewrite (flow_await_further_fulfilled _ _ _ H4). cbn [events outcome].
    unfold call_further. cbn [events outcome]. rewrite H5. reflexivity. }
  unfold waitUntilLoaded. cbn [bind Monad_Flow].
  assert (Hl : outcome (lift (getEditorFrame (core full) this) t)
               = Settles t1 (Fulfilled first)) by exact H1.
  rewrite (flow_await_fulfilled _ _ _ Hl). cbn [events lift outcome].
  rewrite (flow_await_further_fulfilled _ _ _ H2). cbn [events outcome].
  assert (Hd : outcome (forceDismissWelcomeTour full this (t1 + d2))
               = Settles (t3 + d4 + d5) (Fulfilled tt))
    by now rewrite Hdismiss.
  rewrite (flow_await_fulfilled _ _ _ Hd). rewrite Hdismiss.
  cbn [events outcome ret Monad_Flow flow_resolve]. unfold listed.
  rewrite app_nil_r. reflexivity.
Qed.

(** X17. [visit] navigates to the Calypso URL of the given type, [post]
    when none is given, and returns the response of that navigation, but
    only once the editor has loaded; when loading fails, [visit] fails
    and the response is dropped. *)
Theorem visit_returns_response_once_loaded
    (type : option jsstring) (response : option Response) (t d : nat) :
  let url :=
    getCalypsoURL match type with Some given => given | None => js "post" end
  in
  respond_further full (Page_goto_url url) t = Settles d (Fulfilled response) ->
  let loading := waitUntilLoaded full this (t + d) in
  events (visit full this getCalypsoURL type t)
  = (t, InvokeFurther (Page_goto_url url)) :: events loading
  /\ (forall (T : nat) (frame : option Frame),
        outcome loading = Settles T (Fulfilled frame) ->
        outcome (visit full this getCalypsoURL type t)
        = Settles T (Fulfilled response))
  /\ (forall (T : nat) (e : Err),
        outcome loading = Settles T (Rejected e) ->
        outcome (visit full this getCalypsoURL type t)
        = Settles T (Rejected e)).
Proof.
  intros url H loading. subst url loading. unfold visit.
  cbn [bind Monad_Flow].
  rewrite (flow_await_further_fulfilled _ _ _ H). cbn [events outcome].
  unfold flow_await.
  destruct (outcome (waitUntilLoaded full this (t + d))) as [|T [f|e]];
    cbn [events outcome ret Monad_Flow flow_resolve];
    rewrite ?app_nil_r; repeat split; try discriminate;
    intros ? ? H'; inversion H'; reflexivity.
Qed.

(** X18. Under the [mobile] viewport [closeSettings] closes the settings
    panel by the panel's own button and never by the toolbar, whereas
    [closeAllPanels] goes through the toolbar under every viewport. *)
Theorem closeSettings_mobile_avoids_toolbar (t : nat) :
  VIEWPORT_NAME platform = js "mobile" ->
  closeSettings platform full t
  = call_further full Settings_closeSidebarForMobile t
  /\ (forall t' : nat,
        ~ In (t', Listed (Invoke Toolbar_closeSettings))
             (events (closeSettings platform full t)))
  /\ In (t, Invoke Toolbar_closeSettings)
        (events (closeAllPanels (core full) t)).
Proof.
  intros Hm. apply is_mobile_true in Hm. unfold closeSettings. rewrite Hm.
  split; [reflexivity|]. split.
  - intros t' [H|[]]. discriminate H.
  - unfold closeAllPanels, Promise_allSettled.
    cbn [bind Monad_Async]. unfold await, started, call, events_of.
    cbn [map events outcome List.concat app].
    destruct (allSettled_outcome _ _) as [|T [v|e]]; cbn [events In];
      rewrite ?in_app_iff; cbn [In]; tauto.
Qed.

End FlowProperties.

Section Titles.

Context {types : ComponentTypes}.
Variable world : World.

Lemma trimStart_fixed (c : code_unit) (r : jsstring) :
  isTrimmed c = false -> trimStart (c :: r) = c :: r.
Proof. intros H. cbn [trimStart]. now rewrite H. Qed.

Lemma trimStart_head (s : jsstring) :
  trimStart s = []
  \/ exists c r, trimStart s = c :: r /\ isTrimmed c = false.
Proof.
  induction s as [|c s IH]; [now left|]. cbn [trimStart].
  destruct (isTrimmed c) eqn:E; [exact IH|]. right. now exists c, s.
Qed.

Lemma trimStart_idempotent (s : jsstring) :
  trimStart (trimStart s) = trimStart s.
Proof.
  destruct (trimStart_head s) as [->|(c & r & -> & Hc)];
    [reflexivity | now apply trimStart_fixed].
Qed.

Lemma trimStart_snoc (l : jsstring) (c : code_unit) :
  isTrimmed c = false -> trimStart (l ++ [c]) = trimStart l ++ [c].
Proof.
  intros Hc. induction l as [|x l IH]; cbn [app trimStart].
  - now rewrite Hc.
  - destruct (isTrimmed x); [exact IH | reflexivity].
Qed.

Lemma trim_idempotent (s : jsstring) : trim (trim s) = trim s.
Proof.
  unfold trim, trimEnd.
  destruct (trimStart_head s) as [->|(c & r & -> & Hc)]; [reflexivity|].
  cbn [rev]. rewrite trimStart_snoc, rev_app_distr by exact Hc.
  cbn [rev app]. rewrite trimStart_fixed by exact Hc.
  cbn [rev]. rewrite rev_involutive.
  rewrite trimStart_snoc, trimStart_idempotent, rev_app_distr by exact Hc.
  reflexivity.
Qed.

(** X21. A title that passed the verification can be entered again as it
    is: [enterTitle] of an already trimmed title accepts the read-back of
    that same title, trimming being idempotent. *)
Theorem enterTitle_accepts_trimmed_title (s : jsstring) (t d1 d2 : nat) :
  respond world (Gutenberg_enterTitle (trim s)) t
  = Settles d1 (Fulfilled tt) ->
  respond world Gutenberg_getTitle (t + d1)
  = Settles d2 (Fulfilled (trim s)) ->
  outcome (enterTitle world (trim s) t) = Settles (t + d1 + d2) (Fulfilled tt).
Proof.
  intros H1 H2. unfold enterTitle. cbn [bind Monad_Async].
  rewrite (await_call_fulfilled world _ _ _ H1). cbn [outcome].
  rewrite (await_call_fulfilled world _ _ _ H2). cbn [outcome].
  rewrite trim_idempotent.
  replace (strict_neq (trim s) (trim s)) with false
    by (symmetry; now apply strict_neq_false).
  reflexivity.
Qed.

End Titles.

(** * The further properties on the scenarios *)

Import Sessions.

(** The iframe never loads, and the default page object does not fail. *)
Lemma getEditorFrame_lenient_never_rejects_witness :
  outcome (getEditorFrame no_iframe default_options 0)
  <> Settles 105 (Rejected timed_out).
Proof.
  apply (@getEditorFrame_lenient_never_rejects _ no_iframe default_options
           0 105 timed_out eq_refl).
Defined.

(** From WP Admin the strict page object still searches; a [null] lookup
    fails with the not-found error. *)
Lemma getEditorFrame_strict_only_not_found_witness :
  (exists rest,
     events (getEditorFrame wp_admin strict 0)
     = (0, Invoke iframe_search) :: rest)
  /\ outcome (getEditorFrame null_handle strict 0)
     = Settles 1 (Rejected SurfaceNotFound).
Proof.
  split.
  - apply (@getEditorFrame_strict_only_not_found _ wp_admin strict 0 eq_refl).
  - destruct (@getEditorFrame_strict_only_not_found _ null_handle strict 0
                eq_refl) as [_ Honly].
    assert (Hrej : exists e,
      outcome (getEditorFrame null_handle strict 0) = Settles 1 (Rejected e))
      by (eexists; reflexivity).
    destruct Hrej as [e He]. rewrite He. now rewrite (Honly 1 e He).
Defined.

(** A detached iframe: [null] is returned as the editor frame. *)
Lemma getEditorFrame_returns_content_frame_witness :
  outcome (getEditorFrame detached_iframe default_options 0)
  = Settles 2 (Fulfilled None).
Proof.
  rewrite (@getEditorFrame_returns_content_frame _ detached_iframe
             default_options (element_handle 0) None 0 1 1
             (or_intror eq_refl) eq_refl eq_refl).
  reflexivity.
Defined.

(** A [null] lookup and an unreachable frame both end on the top frame. *)
Lemma getEditorFrame_late_failures_degrade_witness :
  outcome (getEditorFrame null_handle default_options 0)
  = Settles 1 (Fulfilled (Some mainFrame))
  /\ outcome (getEditorFrame frame_unreachable default_options 0)
     = Settles 3 (Fulfilled (Some mainFrame)).
Proof.
  split.
  - rewrite (proj1 (@getEditorFrame_late_failures_degrade _ null_handle
                      default_options 0 eq_refl eq_refl) 1 eq_refl).
    reflexivity.
  - rewrite (proj2 (@getEditorFrame_late_failures_degrade _ frame_unreachable
                      default_options 0 eq_refl eq_refl)
               (element_handle 0) 1 2 (OtherError 7) eq_refl eq_refl).
    reflexivity.
Defined.

(** No frame, or a relative link: the toast source is rejected. *)
Lemma toast_source_fails_without_url_witness :
  outcome (getPublishedURLFromToast desktop detached_iframe default_options 0)
  = Settles 2 (Rejected (TypeError (js "Cannot read properties of null")))
  /\ outcome (getPublishedURLFromToast desktop relative_link default_options 0)
     = Settles 3 (Rejected (TypeError (js "Invalid URL"))).
Proof.
  split.
  - rewrite (proj1 (@toast_source_fails_without_url _ desktop detached_iframe
                      default_options 0 2) eq_refl).
    reflexivity.
  - apply (proj2 (@toast_source_fails_without_url _ desktop relative_link
                    default_options 0 2)
             (childFrame 0) 1 (Some (js "/2021/11/hello"))
             eq_refl eq_refl eq_refl).
Defined.

(** With the checklist open its button is pressed at tick 2; without the
    checklist it is never pressed. *)
Lemma publish_second_stage_iff_panel_open_witness :
  In (2, Invoke PublishPanel_publish)
     (events (publish desktop cooperative default_options false 0))
  /\ ~ In (2, Invoke PublishPanel_publish)
          (events (publish desktop no_checklist default_options false 0)).
Proof.
  split.
  - apply (@publish_second_stage_iff_panel_open _ desktop cooperative
             default_options false true 0 1 1 2 eq_refl eq_refl).
    split; reflexivity.
  - intros Hin.
    apply (@publish_second_stage_iff_panel_open _ desktop no_checklist
             default_options false false 0 1 1 2 eq_refl eq_refl) in Hin.
    destruct Hin as [Hopen _]. discriminate Hopen.
Defined.

(** The visit follows the URL that is returned. *)
Lemma publish_visits_the_url_it_returns_witness :
  exists (tv d1 d2 : nat) (r : option Response),
    outcome (publish desktop cooperative default_options false 0)
    = Settles tv (Fulfilled {| href := post_url |})
    /\ respond cooperative (goto_published post_url) tv
       = Settles d1 (Fulfilled r)
    /\ respond cooperative confirm_post_shown (tv + d1)
       = Settles d2 (Fulfilled tt)
    /\ 6 = tv + d1 + d2
    /\ events (publish desktop cooperative default_options true 0)
       = events (publish desktop cooperative default_options false 0)
         ++ [ (tv, Page_once_dialog_accept);
              (tv, Invoke (goto_published post_url));
              (tv + d1, Invoke confirm_post_shown) ].
Proof.
  apply (@publish_visits_the_url_it_returns _ desktop cooperative
           default_options 0 6 {| href := post_url |} eq_refl).
Defined.

(** Published at tick 4, but not yet visible: the URL is not returned. *)
Lemma publish_visit_failure_hides_url_witness :
  outcome (publish desktop post_not_visible default_options false 0)
  = Settles 4 (Fulfilled {| href := post_url |})
  /\ outcome (publish desktop post_not_visible default_options true 0)
     = Settles 50 (Rejected timed_out).
Proof.
  split; [reflexivity|].
  apply (proj2 (@publish_visit_failure_hides_url _ desktop post_not_visible
                  default_options 0 4 {| href := post_url |} eq_refl)
           1 45 None timed_out eq_refl eq_refl).
Defined.

(** The posts list is reached at tick 4; the exit button fails at 31. *)
Lemma exitEditor_fails_with_exit_action_witness :
  outcome (exitEditor desktop exit_button_stuck 0)
  = Settles 31 (Rejected timed_out).
Proof.
  apply (@exitEditor_fails_with_exit_action _ desktop exit_button_stuck
           0 1 31 timed_out eq_refl eq_refl).
  intros url d e' [<-|[<-|[<-|[]]]]; discriminate.
Defined.

(** The Page tab fails at tick 1, the Post tab would succeed at tick 2. *)
Lemma settings_workflows_fail_with_first_rejection_witness :
  tab_rejected page_tab_detached 0 1 (OtherError 3)
  /\ addTag page_tab_detached (js "e2e") 0
     = {| events := tab_clicks 0;
          outcome := Settles 1 (Rejected (OtherError 3)) |}.
Proof.
  assert (Hrej : tab_rejected page_tab_detached 0 1 (OtherError 3)).
  { left. split; [reflexivity | unfold settles_not_before; simpl; lia]. }
  split; [exact Hrej|].
  pose proof (@settings_workflows_fail_with_first_rejection _
                page_tab_detached 12 (js "Private") None
                (js "Uncategorized") (js "e2e") (js "hello-world")
                0 1 (OtherError 3) Hrej) as H.
  cbv zeta in H. destruct H as (_ & _ & _ & Htag & _). exact Htag.
Defined.

(** Closing the preview, on desktop and on mobile. *)
Lemma closePreview_restores_desktop_witness :
  closePreview desktop cooperative (js "Desktop") 0
  = previewAsDesktop desktop cooperative (js "Desktop") 0
  /\ closePreview mobile cooperative (js "Desktop") 0
     = {| events := []; outcome := Settles 0 (Fulfilled tt) |}.
Proof.
  split.
  - apply (proj1 (@closePreview_restores_desktop _ desktop cooperative
                    (js "Desktop") 0)).
    intros H; discriminate H.
  - apply (proj2 (@closePreview_restores_desktop _ mobile cooperative
                    (js "Desktop") 0) eq_refl).
Defined.

(** The pattern is inserted once its toast shows, at tick 5. *)
Lemma addPattern_waits_for_its_toast_witness :
  exists (t' d : nat),
    respond_further (over cooperative)
      (FrameLocator_waitFor
         (pattern_inserted_toast (js "Two images side by side"))) t'
    = Settles d (Fulfilled tt)
    /\ 5 = t' + d.
Proof.
  apply (proj1 (@addPattern_waits_for_its_toast _ (over cooperative)
                  (js "Two images side by side") 0) 5 eq_refl).
Defined.

(** Backspace at tick 1 follows a click that succeeded; with the block
    gone no key is pressed. *)
Lemma removeBlock_deletes_only_after_click_witness :
  (js "Backspace" = js "Backspace"
   /\ exists d : nat,
        respond_further (over cooperative)
          (ElementHandle_click (element_handle 7)) 0
        = Settles d (Fulfilled tt)
        /\ 1 = 0 + d)
  /\ ~ In (31, InvokeFurther (Keyboard_press (js "Backspace")))
          (events (removeBlock block_gone (element_handle 7) 0)).
Proof.
  split.
  - apply (@removeBlock_deletes_only_after_click _ (over cooperative)
             (element_handle 7) (js "Backspace") 0 1).
    right. left. reflexivity.
  - intros Hin.
    apply (@removeBlock_deletes_only_after_click _ block_gone
             (element_handle 7) (js "Backspace") 0 31) in Hin.
    destruct Hin as (_ & d & Hclick & _). discriminate Hclick.
Defined.

(** On a post the revisions are shown from tick 1; with the Page tab
    detached they are not shown. *)
Lemma viewRevisions_resolves_tab_first_witness :
  outcome (viewRevisions (over post_editor) 0) = Settles 2 (Fulfilled tt)
  /\ viewRevisions (over page_tab_detached) 0
     = {| events := listed (tab_clicks 0);
          outcome := Settles 1 (Rejected (OtherError 3)) |}.
Proof.
  split.
  - rewrite (proj1 (@viewRevisions_resolves_tab_first _ (over post_editor)
                      0 1)).
    + reflexivity.
    + right. split; [reflexivity | unfold settles_after; simpl; lia].
  - apply (proj2 (@viewRevisions_resolves_tab_first _
                    (over page_tab_detached) 0 1)).
    left. split; [reflexivity | unfold settles_not_before; simpl; lia].
Defined.

(** The dismissal at tick 3 follows the status reported at tick 2. *)
Lemma welcome_tour_dismissed_after_status_loaded_witness :
  exists (t0 d : nat),
    respond_further (over cooperative)
      (Frame_waitForFunction (childFrame 0) isWelcomeGuideStatusLoaded) t0
    = Settles d (Fulfilled tt)
    /\ 3 = t0 + d.
Proof.
  apply (@welcome_tour_dismissed_after_status_loaded _ (over cooperative)
           default_options (childFrame 0) 0 3).
  vm_compute. right. right. right. left. reflexivity.
Defined.

(** The Gutenframe redirects to WP Admin while the editor loads: the
    iframe's frame is returned, the tour is dismissed on the top frame. *)
Lemma waitUntilLoaded_returns_first_frame_witness :
  outcome (waitUntilLoaded (over redirected) default_options 0)
  = Settles 5 (Fulfilled (Some (childFrame 0)))
  /\ In (4, InvokeFurther
              (Frame_waitForFunction mainFrame setShowWelcomeGuide_false))
        (events (waitUntilLoaded (over redirected) default_options 0)).
Proof.
  rewrite (@waitUntilLoaded_returns_first_frame _ (over redirected)
             default_options (Some (childFrame 0)) mainFrame 0 2 1 3 1 1
             eq_refl eq_refl eq_refl eq_refl eq_refl).
  split; [reflexivity|]. cbn [events]. rewrite !in_app_iff.
  right. right. right. right. left. reflexivity.
Defined.

(** A visit without argument goes to the new-post page; when the title
    never shows, the visit fails. *)
Lemma visit_returns_response_once_loaded_witness :
  outcome (visit (over cooperative) default_options calypso None 0)
  = Settles 8 (Fulfilled (Some (response 200)))
  /\ outcome (visit title_missing default_options calypso
                (Some (js "page")) 0)
     = Settles 33 (Rejected timed_out).
Proof.
  split.
  - pose proof (@visit_returns_response_once_loaded _ (over cooperative)
                  default_options calypso None (Some (response 200)) 0 1
                  eq_refl) as H.
    cbv zeta in H. destruct H as (_ & Hok & _).
    apply (Hok 8 (Some (childFrame 0))). reflexivity.
  - pose proof (@visit_returns_response_once_loaded _ title_missing
                  default_options calypso (Some (js "page"))
                  (Some (response 200)) 0 1 eq_refl) as H.
    cbv zeta in H. destruct H as (_ & _ & Hfail).
    apply (Hfail 33 timed_out). reflexivity.
Defined.

(** On mobile the settings panel closes by its own button. *)
Lemma closeSettings_mobile_avoids_toolbar_witness :
  closeSettings mobile (over cooperative) 0
  = call_further (over cooperative) Settings_closeSidebarForMobile 0
  /\ In (0, Invoke Toolbar_closeSettings)
        (events (closeAllPanels cooperative 0)).
Proof.
  destruct (@closeSettings_mobile_avoids_toolbar _ mobile (over cooperative)
              0 eq_refl) as (Hclose & _ & Hall).
  split; [exact Hclose | exact Hall].
Defined.

(** [  Hello  ] was verified against a read-back of [Hello]. *)
Lemma enterTitle_fulfilled_only_if_verified_witness :
  exists (t' d : nat),
    respond (title_reads (js "Hello")) Gutenberg_getTitle t'
    = Settles d (Fulfilled (trim (js "  Hello  ")))
    /\ 2 = t' + d.
Proof.
  apply (@enterTitle_fulfilled_only_if_verified _ (title_reads (js "Hello"))
           (js "  Hello  ") 0 2 eq_refl).
Defined.

(** On mobile the inserter is not closed after a Quote block. *)
Lemma addBlock_mobile_never_closes_witness :
  ~ In (5, Invoke Toolbar_closeBlockInserter)
       (events (addBlock mobile cooperative (js "Quote") (js ".wp-block") 0)).
Proof.
  apply (@addBlock_mobile_never_closes _ mobile cooperative (js "Quote")
           (js ".wp-block") 0 eq_refl 5).
Defined.

(** [Hello], read back from [  Hello  ], is entered again. *)
Lemma enterTitle_accepts_trimmed_title_witness :
  outcome (enterTitle (title_reads (js "Hello")) (trim (js "  Hello  ")) 0)
  = Settles 2 (Fulfilled tt).
Proof.
  apply (@enterTitle_accepts_trimmed_title _ (title_reads (js "Hello"))
           (js "  Hello  ") 0 1 1 eq_refl eq_refl).
Defined.
